(** * Porting-status scripts of Andastra: a shallow embedding

    The three scripts under [scripts/] are embedded as Rocq functions:

    - [analyze_porting_status.py]  : [PathMapper.map_python_to_csharp]
    - [extract-indoor-builder-tests.py] : [Indexer.extract_tests], [Indexer.main]
    - [generate-remaining-tests.py] : [DiffReporter.python_tests],
      [DiffReporter.ported], [DiffReporter.missing], [DiffReporter.script]

    Python [str] values are modelled as [string] (and as [list ascii] inside
    the regular-expression matcher).  The character classes [\s] and [\w],
    [strip] and the case conversions [upper] and [title] are those of
    Python on code points below 128 and are not those of Python above:
    a theorem whose statement depends on them is stated for ASCII text
    ([Str.is_ascii]). *)

From Stdlib Require Import String Ascii List Arith Bool Lia NArith.
From Stdlib Require Import Numbers.DecimalString Sorting.Sorted.
From stdpp Require Import base gmap strings list sorting.
Import ListNotations.

Local Open Scope string_scope.
Local Open Scope nat_scope.
Local Open Scope list_scope.

(** ** Python exceptions and results *)

Inductive exn :=
| IndexError
| UnicodeDecodeError   (* the bytes of a file are not UTF-8 *)
| OSError.             (* a path that cannot be read as a file *)

Inductive py_result (A : Type) :=
| Returns (a : A)
| Raises (e : exn).
Arguments Returns {A} a.
Arguments Raises {A} e.

#[global] Instance py_result_bind : MBind py_result :=
  fun A B (k : A -> py_result B) (r : py_result A) =>
    match r with
    | Returns a => k a
    | Raises e => Raises e
    end.

#[global] Instance py_result_ret : MRet py_result := fun A a => Returns a.

(** ** The operations of [str] the scripts use *)

Module Str.

Definition code (c : ascii) : nat := nat_of_ascii c.

(** A code point below 128, and a text of such code points. *)
Definition is_ascii_char (c : ascii) : bool := code c <? 128.
Definition is_ascii (s : string) : bool :=
  forallb is_ascii_char (list_ascii_of_string s).

Definition is_lower (c : ascii) : bool := (97 <=? code c) && (code c <=? 122).
Definition is_upper (c : ascii) : bool := (65 <=? code c) && (code c <=? 90).
Definition is_digit (c : ascii) : bool := (48 <=? code c) && (code c <=? 57).

(** [\s] of a [str] pattern, on ASCII: TAB, LF, VT, FF, CR, the four
    separators FS..US, and the blank. *)
Definition is_space (c : ascii) : bool :=
  ((9 <=? code c) && (code c <=? 13))
  || ((28 <=? code c) && (code c <=? 31))
  || (code c =? 32).

(** [\w] of a [str] pattern, on ASCII: letters, digits and underscore. *)
Definition is_word (c : ascii) : bool :=
  is_lower c || is_upper c || is_digit c || (code c =? 95).

Definition to_upper (c : ascii) : ascii :=
  if is_lower c then ascii_of_nat (code c - 32) else c.
Definition to_lower (c : ascii) : ascii :=
  if is_upper c then ascii_of_nat (code c + 32) else c.

(** [s.upper()] *)
Fixpoint upper (s : string) : string :=
  match s with
  | EmptyString => EmptyString
  | String c s' => String (to_upper c) (upper s')
  end.

(** [s.title()]: a cased character that follows an uncased one (or starts
    the text) is upper-cased, a cased character that follows a cased one
    is lower-cased; [prev_cased] is CPython's [previous_is_cased]. *)
Fixpoint title_from (prev_cased : bool) (s : string) : string :=
  match s with
  | EmptyString => EmptyString
  | String c s' =>
      if is_lower c then
        String (if prev_cased then c else to_upper c) (title_from true s')
      else if is_upper c then
        String (if prev_cased then to_lower c else c) (title_from true s')
      else String c (title_from false s')
  end.

Definition title (s : string) : string := title_from false s.

(** [s.startswith(p)] *)
Definition startswith (s p : string) : bool := String.prefix p s.

(** [s[n:]] *)
Fixpoint slice_from (n : nat) (s : string) : string :=
  match n, s with
  | 0, _ => s
  | S _, EmptyString => EmptyString
  | S n', String _ s' => slice_from n' s'
  end.

(** [s.split(sep)] for a one-character separator: never the empty list. *)
Fixpoint split (sep : ascii) (s : string) : list string :=
  match s with
  | EmptyString => [EmptyString]
  | String c s' =>
      if Ascii.eqb c sep then EmptyString :: split sep s'
      else match split sep s' with
           | h :: t => String c h :: t
           | [] => [String c EmptyString]
           end
  end.

(** [sep.join(parts)] *)
Definition join (sep : string) (parts : list string) : string :=
  String.concat sep parts.

(** [l[i]] on a list of strings *)
Definition getitem (l : list string) (i : nat) : py_result string :=
  match nth_error l i with
  | Some x => Returns x
  | None => Raises IndexError
  end.

(** a segment of a dotted path holds no separator *)
Fixpoint no_dot (s : string) : bool :=
  match s with
  | EmptyString => true
  | String c s' => negb (Ascii.eqb c ".") && no_dot s'
  end.

End Str.

(** ** The fragment of [re] the scripts use

    The four patterns of the scripts are sequences of literals, of one
    anchor, of repeated character classes and of capture groups; the
    matcher below is the backtracking matcher of [re] on such sequences:
    a greedy repeat takes as many characters as it can and gives them back
    one at a time, a lazy repeat takes one more only when the rest of the
    pattern fails. *)

Module Re.
Import Str.

Inductive cclass :=
| Space                  (* \s *)
| Word                   (* \w *)
| NotChar (c : ascii).   (* [^c] *)

Definition in_class (k : cclass) (c : ascii) : bool :=
  match k with
  | Space => is_space c
  | Word => is_word c
  | NotChar x => negb (Ascii.eqb c x)
  end.

Inductive item :=
| Bol                    (* ^ under re.MULTILINE *)
| Lit (c : ascii)        (* a literal character *)
| Star (k : cclass)      (* k*  *)
| Plus (k : cclass)      (* k+  *)
| StarLazy (k : cclass)  (* k*? *)
| Open (g : nat)         (* the opening parenthesis of group g *)
| Close (g : nat).       (* the closing parenthesis of group g *)

Definition pattern := list item.

Definition lit (s : string) : pattern :=
  List.map Lit (list_ascii_of_string s).

(** A mark is (group, is_end, offset); the latest mark comes first. *)
Definition marks := list (nat * bool * nat).

Definition LF : ascii := "010"%char.

(** [^] under MULTILINE: at the start of the text or right after a
    line feed; [prev] is the character before the current offset. *)
Definition at_bol (prev : option ascii) : bool :=
  match prev with
  | None => true
  | Some c => Ascii.eqb c LF
  end.

Section Repeat.
Variable k : cclass.
Variable cont : option ascii -> nat -> list ascii -> option (nat * marks).

Fixpoint star_greedy (prev : option ascii) (pos : nat) (s : list ascii)
  : option (nat * marks) :=
  match s with
  | c :: s' =>
      if in_class k c then
        match star_greedy (Some c) (S pos) s' with
        | Some r => Some r
        | None => cont prev pos s
        end
      else cont prev pos s
  | [] => cont prev pos s
  end.

Fixpoint star_lazy (prev : option ascii) (pos : nat) (s : list ascii)
  : option (nat * marks) :=
  match cont prev pos s with
  | Some r => Some r
  | None =>
      match s with
      | c :: s' =>
          if in_class k c then star_lazy (Some c) (S pos) s' else None
      | [] => None
      end
  end.
End Repeat.

(** [match_here p caps prev pos s]: the pattern [p] matched at offset
    [pos], where [s] is the text from [pos] on; the result is the end
    offset and the marks of the groups. *)
Fixpoint match_here (p : pattern) (caps : marks) (prev : option ascii)
    (pos : nat) (s : list ascii) {struct p} : option (nat * marks) :=
  match p with
  | [] => Some (pos, caps)
  | Bol :: p' =>
      if at_bol prev then match_here p' caps prev pos s else None
  | Lit c :: p' =>
      match s with
      | c' :: s' =>
          if Ascii.eqb c' c then match_here p' caps (Some c') (S pos) s'
          else None
      | [] => None
      end
  | Star k :: p' => star_greedy k (match_here p' caps) prev pos s
  | Plus k :: p' =>
      match s with
      | c :: s' =>
          if in_class k c
          then star_greedy k (match_here p' caps) (Some c) (S pos) s'
          else None
      | [] => None
      end
  | StarLazy k :: p' => star_lazy k (match_here p' caps) prev pos s
  | Open g :: p' => match_here p' ((g, false, pos) :: caps) prev pos s
  | Close g :: p' => match_here p' ((g, true, pos) :: caps) prev pos s
  end.

(** A match object: [m.start()], [m.end()] and the group marks. *)
Record match_obj := MatchObj {
  m_start : nat;
  m_end : nat;
  m_marks : marks
}.

(** The scan of [re.finditer]: leftmost match first, the next search
    starts where the match ended; [skip] counts the offsets that lie
    inside the previous match. *)
Fixpoint scan (p : pattern) (prev : option ascii) (pos : nat)
    (s : list ascii) (skip : nat) {struct s} : list match_obj :=
  match skip with
  | S skip' =>
      match s with
      | c :: s' => scan p (Some c) (S pos) s' skip'
      | [] => []
      end
  | 0 =>
      match match_here p [] prev pos s with
      | Some (e, caps) =>
          MatchObj pos e caps ::
          match s with
          | c :: s' => scan p (Some c) (S pos) s' (e - pos - 1)
          | [] => []
          end
      | None =>
          match s with
          | c :: s' => scan p (Some c) (S pos) s' 0
          | [] => []
          end
      end
  end.

Definition finditer (p : pattern) (text : list ascii) : list match_obj :=
  scan p None 0 text 0.

Fixpoint mark_of (g : nat) (is_end : bool) (caps : marks) : nat :=
  match caps with
  | [] => 0
  | (g', b, n) :: caps' =>
      if (g' =? g) && Bool.eqb b is_end then n else mark_of g is_end caps'
  end.

(** [text[b:e]] *)
Definition slice (text : list ascii) (b e : nat) : list ascii :=
  firstn (e - b) (skipn b text).

(** [m.start(g)], [m.end(g)], [m.group(g)] *)
Definition start_of (m : match_obj) (g : nat) : nat := mark_of g false (m_marks m).
Definition end_of (m : match_obj) (g : nat) : nat := mark_of g true (m_marks m).
Definition group (text : list ascii) (m : match_obj) (g : nat) : string :=
  string_of_list_ascii (slice text (start_of m g) (end_of m g)).

(** [re.findall] for a pattern with one group: the texts of group 1. *)
Definition findall (p : pattern) (text : list ascii) : list string :=
  List.map (fun m => group text m 1) (finditer p text).

(** *** What a match is

    [matches p caps prev pos s r] says, without reference to the order
    in which the matcher tries things, that [p] matches a prefix of [s]
    with result [r]: each repeat stands for some run [w] of characters of
    its class. *)

(** The character before the offset reached by reading [w]. *)
Definition last_of (prev : option ascii) (w : list ascii) : option ascii :=
  fold_left (fun _ c => Some c) w prev.

Fixpoint matches (p : pattern) (caps : marks) (prev : option ascii)
    (pos : nat) (s : list ascii) (r : nat * marks) {struct p} : Prop :=
  match p with
  | [] => r = (pos, caps)
  | Bol :: p' => at_bol prev = true /\ matches p' caps prev pos s r
  | Lit c :: p' =>
      exists s', s = c :: s' /\ matches p' caps (Some c) (S pos) s' r
  | Star k :: p' | StarLazy k :: p' =>
      exists w s', s = w ++ s' /\ forallb (in_class k) w = true
                   /\ matches p' caps (last_of prev w) (pos + List.length w) s' r
  | Plus k :: p' =>
      exists w s', s = w ++ s' /\ w <> [] /\ forallb (in_class k) w = true
                   /\ matches p' caps (last_of prev w) (pos + List.length w) s' r
  | Open g :: p' => matches p' ((g, false, pos) :: caps) prev pos s r
  | Close g :: p' => matches p' ((g, true, pos) :: caps) prev pos s r
  end.

(** The character before offset [i] of [text]. *)
Definition prev_at (text : list ascii) (i : nat) : option ascii :=
  match i with
  | 0 => None
  | S j => text !! j
  end.

(** The offset of the keyword of a function match: group 1 starts right
    after the four characters of the keyword and its blank. *)
Definition def_offset (m : match_obj) : nat := start_of m 1 - 4.

(** The keyword of the match stands at the start of a line. *)
Definition at_column_0 (text : list ascii) (m : match_obj) : bool :=
  at_bol (prev_at text (def_offset m)).

End Re.

(** ** analyze_porting_status.py *)

Module PathMapper.
Import Str.

(** The generic rule, last line of [map_python_to_csharp]. *)
Definition generic (parts : list string) : string :=
  join "." (List.map title parts).

(** The body of [map_python_to_csharp] from [parts = python_path.split(".")]
    on; the conjunction of the [if] is short-circuit. *)
Definition map_parts (python_path : string) : py_result string :=
  let parts := split "." python_path in
  if 1 <? List.length parts then
    p0 ← getitem parts 0;
    if String.eqb p0 "resource" then
      p1 ← getitem parts 1;
      if String.eqb p1 "formats" then
        p2 ← getitem parts 2;
        let format_name := upper p2 in
        if 3 <? List.length parts then
          Returns ("Formats." +:+ format_name +:+ "." +:+ join "." (skipn 3 parts))
        else Returns ("Formats." +:+ format_name)
      else Returns (generic parts)
    else Returns (generic parts)
  else Returns (generic parts).

Definition map_python_to_csharp (python_path : string) : py_result string :=
  if startswith python_path "pykotor." then
    map_parts (slice_from 8 python_path)
  else if startswith python_path "utility." then
    let python_path := slice_from 8 python_path in
    Returns ("Utility." +:+ python_path)
  else map_parts python_path.

(** A ModulePath is a sequence of segments; the script receives it as the
    segments joined by the separator. *)
Definition of_segments (p : list string) : string := join "." p.

Definition map (p : list string) : py_result string :=
  map_python_to_csharp (of_segments p).

End PathMapper.

(** ** extract-indoor-builder-tests.py *)

Module Indexer.
Import Str Re.

(** The class pattern, token by token: ^ class_ ( Test \w+ ) : *)
Definition CLASS_PATTERN : pattern :=
  Bol :: lit "class " ++ Open 1 :: lit "Test" ++ Plus Word :: Close 1 :: lit ":".

(** The function pattern, token by token:
    ^ \s+ def_ ( test_ \w+ ) \( ( [^)]* ) \) : *)
Definition TEST_PATTERN : pattern :=
  Bol :: Plus Space :: lit "def " ++ Open 1 :: lit "test_" ++ Plus Word
  :: Close 1 :: lit "(" ++ Open 2 :: Star (NotChar ")") :: Close 2 :: lit "):".

(** The first loop: [(match.start(), match.group(1))] per class. *)
Definition find_classes (content : list ascii) : list (nat * string) :=
  List.map (fun m => (m_start m, group content m 1))
           (finditer CLASS_PATTERN content).

(** The second loop: [(match.start(), match.group(1), match.group(2))]. *)
Definition find_tests (content : list ascii) : list (nat * string * string) :=
  List.map (fun m => (m_start m, group content m 1, group content m 2))
           (finditer TEST_PATTERN content).

(** The [while] of the grouping loop; it runs at most [len(classes)]
    times, which is the fuel given by [group_tests].  With no class,
    [len(classes) - 1] is negative in Python and [0] here: the test
    [idx < len(classes) - 1] fails in both. *)
Fixpoint advance (fuel : nat) (classes : list (nat * string))
    (test_start : nat) (current_class_idx : nat) : nat :=
  match fuel with
  | 0 => current_class_idx
  | S fuel' =>
      if (current_class_idx <? List.length classes - 1)
         && (match classes !! (current_class_idx + 1) with
             | Some (class_start, _) => class_start <? test_start
             | None => false
             end)
      then advance fuel' classes test_start (current_class_idx + 1)
      else current_class_idx
  end.

(** The conditional expression that names the class. *)
Definition class_at (classes : list (nat * string)) (idx : nat) : string :=
  if idx <? List.length classes then
    match classes !! idx with
    | Some (_, name) => name
    | None => "Unknown"
    end
  else "Unknown".

(** The [for] of the grouping loop; [current_class_idx] is its state. *)
Fixpoint group_tests (classes : list (nat * string)) (current_class_idx : nat)
    (tests : list (nat * string * string)) : list (string * string * string) :=
  match tests with
  | [] => []
  | (test_start, test_name, test_params) :: tests' =>
      let idx := advance (List.length classes) classes test_start current_class_idx in
      (class_at classes idx, test_name, test_params)
      :: group_tests classes idx tests'
  end.

(** The number of leading classes that start before [test_start]; when
    the classes are in offset order, the last class that starts before
    [test_start], if there is one, stands at this number minus one. *)
Fixpoint started_before (test_start : nat) (classes : list (nat * string)) : nat :=
  match classes with
  | (class_start, _) :: rest =>
      if class_start <? test_start then S (started_before test_start rest) else 0
  | [] => 0
  end.

(** What the grouping loop gives a test that starts at [test_start]. *)
Definition class_of (classes : list (nat * string)) (test_start : nat) : string :=
  class_at classes (started_before test_start classes - 1).

Definition extract_tests_text (content : list ascii)
  : list (string * string * string) :=
  group_tests (find_classes content) 0 (find_tests content).

(** [extract_tests], from the text of the file on. *)
Definition extract_tests (content : string) : list (string * string * string) :=
  extract_tests_text (list_ascii_of_string content).

(** What stands at a path: a file whose bytes decode to a text, or
    something [read_text] raises on (bytes that are not UTF-8, a
    directory).  [exists()] holds of both. *)
Inductive file :=
| TextFile (content : string)
| Unreadable (e : exn).

(** The file system as the script sees it, by path. *)
Definition file_system := gmap string file.

(** [Path(python_file).read_text(encoding="utf-8")] *)
Definition read_text (f : file) : py_result string :=
  match f with
  | TextFile content => Returns content
  | Unreadable e => Raises e
  end.

(** How a run ends: what was printed, the exception that ended the run
    when one was not caught (the interpreter then prints its traceback
    and exits with status 1), and the exit status. *)
Record outcome := Outcome {
  stdout : list string;     (* one entry per [print] *)
  stderr : list string;
  uncaught : option exn;
  exit_code : nat
}.

Definition python_file : string :=
  "vendor/PyKotor/Tools/HolocronToolset/tests/gui/windows/test_indoor_builder.py".

Definition decimal (n : nat) : string := NilEmpty.string_of_uint (Nat.to_uint n).

Fixpoint spaces (n : nat) : string :=
  match n with
  | 0 => EmptyString
  | S n' => String " " (spaces n')
  end.

(** [f"{i:3d}"] *)
Definition fmt_3d (i : nat) : string :=
  let d := decimal i in spaces (3 - String.length d) +:+ d.

Fixpoint test_lines (i : nat) (tests : list (string * string * string))
  : list string :=
  match tests with
  | [] => []
  | (class_name, test_name, _) :: tests' =>
      (fmt_3d i +:+ ". " +:+ class_name +:+ "::" +:+ test_name)
      :: test_lines (S i) tests'
  end.

(** The [__main__] block. *)
Definition main (fs : file_system) : outcome :=
  match fs !! python_file with
  | None =>
      Outcome [] ["Error: " +:+ python_file +:+ " not found"] None 1
  | Some f =>
      match read_text f with
      | Raises e => Outcome [] [] (Some e) 1
      | Returns content =>
          let tests := extract_tests content in
          Outcome
            (("Total tests: " +:+ decimal (List.length tests))
             :: String LF "Test list:"
             :: test_lines 1 tests)
            [] None 0
      end
  end.

End Indexer.

(** ** generate-remaining-tests.py *)

Module DiffReporter.
Import Str Re.

Definition QUOTE : ascii := "034"%char.

(** The pattern of the first loop, token by token, with Q for the
    double quote:
    ^ \s+ def_ ( test_ \w+ ) \( [^)]* \) : \s* \n ( \s+ ) QQQ ( [^Q]*? ) QQQ
    The pattern has no dot, so re.DOTALL changes nothing. *)
Definition DOC_PATTERN : pattern :=
  Bol :: Plus Space :: lit "def " ++ Open 1 :: lit "test_" ++ Plus Word
  :: Close 1 :: lit "(" ++ Star (NotChar ")") :: lit "):" ++ Star Space
  :: Lit LF :: Open 2 :: Plus Space :: Close 2
  :: Lit QUOTE :: Lit QUOTE :: Lit QUOTE
  :: Open 3 :: StarLazy (NotChar QUOTE) :: Close 3
  :: Lit QUOTE :: Lit QUOTE :: [Lit QUOTE].

(** The marker pattern, token by token:
    //_Original:_def_ ( test_ \w+ ) \( *)
Definition PORTED_PATTERN : pattern :=
  lit "// Original: def " ++ Open 1 :: lit "test_" ++ Plus Word
  :: Close 1 :: lit "(".

Fixpoint lstrip (s : list ascii) : list ascii :=
  match s with
  | c :: s' => if is_space c then lstrip s' else s
  | [] => []
  end.

(** [s.strip()] *)
Definition strip (s : string) : string :=
  string_of_list_ascii
    (rev (lstrip (rev (lstrip (list_ascii_of_string s))))).

(** [s.split(LF)[0]]; [split] never returns the empty list. *)
Definition first_line (s : string) : string :=
  match split LF s with
  | l :: _ => l
  | [] => EmptyString
  end.

Definition python_tests_text (python_content : list ascii)
  : list (string * string) :=
  List.map (fun m =>
              let name := group python_content m 1 in
              let docstring := first_line (strip (group python_content m 3)) in
              (name, docstring))
           (finditer DOC_PATTERN python_content).

(** The list [python_tests] the first loop builds. *)
Definition python_tests (python_content : string) : list (string * string) :=
  python_tests_text (list_ascii_of_string python_content).

(** The matches of the marker pattern, before [set(...)]. *)
Definition ported_names (csharp_content : string) : list string :=
  findall PORTED_PATTERN (list_ascii_of_string csharp_content).

(** [ported = set(re.findall(...))] *)
Definition ported (csharp_content : string) : gset string :=
  list_to_set (ported_names csharp_content).

(** [missing = [(name, doc) for name, doc in python_tests if name not in ported]] *)
Fixpoint missing (python_tests : list (string * string)) (ported : gset string)
  : list (string * string) :=
  match python_tests with
  | [] => []
  | (name, doc) :: rest =>
      if bool_decide (name ∉ ported) then (name, doc) :: missing rest ported
      else missing rest ported
  end.

(** What the script reports: [len(python_tests)], [len(ported)] and
    [missing]. *)
Record DiffResult := {
  total : nat;
  ported_count : nat;
  missing_entries : list (string * string)
}.

Definition diff (entries : list (string * string)) (ported_source_text : string)
  : DiffResult :=
  let ported := ported ported_source_text in
  {| total := List.length entries;
     ported_count := size ported;
     missing_entries := missing entries ported |}.

Definition decimal (n : nat) : string := NilEmpty.string_of_uint (Nat.to_uint n).

(** The whole script, from the two texts read to the lines printed. *)
Definition script (python_content csharp_content : string) : list string :=
  let r := diff (python_tests python_content) csharp_content in
  ("Total Python tests: " +:+ decimal (total r))
  :: ("Ported: " +:+ decimal (ported_count r))
  :: ("Missing: " +:+ decimal (List.length (missing_entries r)))
  :: String LF "Missing test names:"
  :: List.map fst (missing_entries r).

End DiffReporter.

(** ** analyze_porting_status.py: the report of [main]

    [main] is embedded from the two dictionaries on: [get_pykotor_modules]
    and [get_csharp_files] walk the file system and stay outside. *)

Module Report.
Import Str.

(** The order of [str]: code point by code point, a proper prefix first. *)
Definition str_le (a b : string) : Prop := String.leb a b = true.

#[global] Instance str_le_dec : RelDecision str_le :=
  fun a b => decide (String.leb a b = true).

(** [sorted(...)] on a list of strings. *)
Definition sorted (l : list string) : list string := merge_sort str_le l.

(** [module_path.split(".")[0]]; [split] never returns the empty list. *)
Definition top_level_of (module_path : string) : string :=
  match split "." module_path with
  | h :: _ => h
  | [] => EmptyString
  end.

(** The loop that fills [by_module], a [defaultdict(list)]:
    [by_module[top_level].append(module_path)]. *)
Fixpoint group_modules (module_paths : list string)
    (by_module : gmap string (list string)) : gmap string (list string) :=
  match module_paths with
  | [] => by_module
  | module_path :: rest =>
      let top_level := top_level_of module_path in
      group_modules rest
        (<[top_level := default [] (by_module !! top_level) ++ [module_path]]>
           by_module)
  end.

(** [by_module] after the loop over [sorted(pykotor_modules.keys())]. *)
Definition by_module_of (pykotor_modules : gmap string string)
  : gmap string (list string) :=
  group_modules (sorted (elements (dom pykotor_modules))) ∅.

Definition decimal (n : nat) : string := NilEmpty.string_of_uint (Nat.to_uint n).

(** The lines printed for one group: the heading, the first ten modules,
    and the count of the others when there are more than ten. *)
Definition group_lines (top_level : string) (modules : list string) : list string :=
  String Re.LF (top_level +:+ " (" +:+ decimal (List.length modules) +:+ " modules):")
  :: List.map (fun m => "  - " +:+ m) (firstn 10 modules)
  ++ (if 10 <? List.length modules
      then ["  ... and " +:+ decimal (List.length modules - 10) +:+ " more"]
      else []).

(** The keys of [by_module] in the order of the last loop. *)
Definition group_keys (by_module : gmap string (list string)) : list string :=
  sorted (elements (dom by_module)).

(** [main], from the two dictionaries on: the lines printed. *)
Definition main (pykotor_modules csharp_files : gmap string string) : list string :=
  let by_module := by_module_of pykotor_modules in
  ("Found " +:+ decimal (size pykotor_modules) +:+ " Python modules")
  :: ("Found " +:+ decimal (size csharp_files) +:+ " C# files")
  :: String Re.LF ("=== Module Analysis ===" +:+ String Re.LF EmptyString)
  :: concat (List.map (fun top_level =>
                         group_lines top_level
                                     (default [] (by_module !! top_level)))
                      (group_keys by_module)).

(** The sum of the sizes of the groups. *)
Definition group_total (by_module : gmap string (list string)) : nat :=
  sum_list_with (fun kv => List.length kv.2) (map_to_list by_module).

End Report.

(** ** Sample texts *)

Module Samples.

Definition Q3 : string :=
  String DiffReporter.QUOTE
    (String DiffReporter.QUOTE (String DiffReporter.QUOTE EmptyString)).

(** A test method in a class the class pattern does not record, before
    the first recorded class. *)
Definition test_before_first_class : string :=
"class Helper:
    def test_helper(self):
        pass

class TestFoo:
    def test_bar(self):
        pass
".

(** A test method with no documentation block. *)
Definition test_without_doc : string :=
"class TestFoo:
    def test_bar(self):
        assert True
".

(** A declaration at column 0 after a blank line. *)
Definition blank_then_def : string :=
"import os

def test_x():
    pass
".

(** The same with a documentation block. *)
Definition blank_then_documented_def : string :=
"import os

def test_x():
    " +:+ Q3 +:+ "Checks x." +:+ Q3 +:+ "
    pass
".

(** The match object of [test_x] in [blank_then_def]. *)
Definition blank_then_def_match : Re.match_obj :=
  Re.MatchObj 10 24 [(2, true, 22); (2, false, 22); (1, true, 21); (1, false, 15)].

(** Ported text with the marker of [test_bar] twice. *)
Definition two_markers : string :=
"    // Original: def test_bar(self):
    [Fact] public void TestBar() { }
    // Original: def test_bar(self):
    [Fact] public void TestBarAgain() { }
".

End Samples.

(** * Properties *)

(** ** The scripts on small inputs *)

Example ex_map_gff :
  PathMapper.map ["resource"; "formats"; "gff"] = Returns "Formats.GFF".
Proof. reflexivity. Qed.

Example ex_map_gff_deep :
  PathMapper.map_python_to_csharp "pykotor.resource.formats.gff.gff_data"
  = Returns "Formats.GFF.gff_data".
Proof. reflexivity. Qed.

Example ex_map_generic :
  PathMapper.map_python_to_csharp "pykotor.common.geometry_utils"
  = Returns "Common.Geometry_Utils".
Proof. reflexivity. Qed.

Example ex_map_utility :
  PathMapper.map ["utility"; "io"; "stream"] = Returns "Utility.io.stream".
Proof. reflexivity. Qed.

Example ex_map_bare_pair :
  PathMapper.map ["resource"; "formats"] = Raises IndexError.
Proof. reflexivity. Qed.

(** Takes apart a hypothesis [matches p ...] for a pattern given in full. *)
Ltac break_match H :=
  simpl in H;
  repeat match type of H with
         | _ /\ _ => let H1 := fresh "Hm" in destruct H as [H1 H]
         | exists _, _ => let x := fresh "x" in destruct H as [x H]
         end.

(** ** Strings: splitting and joining on the separator *)

Section StrFacts.
Import Str.

Lemma split_nonempty sep s : split sep s <> [].
Proof.
  destruct s as [|c s]; simpl; [discriminate|].
  destruct (Ascii.eqb c sep); [discriminate|].
  destruct (split sep s); discriminate.
Qed.

Lemma join_cons2 sep x y l :
  join sep (x :: y :: l) = x +:+ sep +:+ join sep (y :: l).
Proof. reflexivity. Qed.

(** Joining what [split] returned gives the text back. *)
Lemma join_split s : join "." (split "." s) = s.
Proof.
  induction s as [|c s IH]; [reflexivity|].
  simpl split. destruct (Ascii.eqb_spec c ".") as [->|Hc].
  - destruct (split "." s) as [|h t] eqn:E; [now apply split_nonempty in E|].
    rewrite join_cons2, IH. reflexivity.
  - destruct (split "." s) as [|h t] eqn:E; [now apply split_nonempty in E|].
    destruct t as [|h' t].
    + simpl in *. now rewrite IH.
    + rewrite join_cons2 in IH. rewrite join_cons2.
      change (String c (h +:+ "." +:+ join "." (h' :: t)) = String c s).
      now rewrite IH.
Qed.

Lemma split_no_dot x : no_dot x = true -> split "." x = [x].
Proof.
  induction x as [|c x IH]; simpl; [reflexivity|].
  intros [Hc Hx]%andb_prop. destruct (Ascii.eqb c "."); [discriminate|].
  now rewrite IH.
Qed.

Lemma split_app_dot x s :
  no_dot x = true -> split "." (x +:+ "." +:+ s) = x :: split "." s.
Proof.
  induction x as [|c x IH]; simpl; [reflexivity|].
  intros [Hc Hx]%andb_prop. destruct (Ascii.eqb c "."); [discriminate|].
  now rewrite IH.
Qed.

(** Splitting the joined segments gives the segments back. *)
Lemma split_join (p : list string) :
  p <> [] -> Forall (fun x => no_dot x = true) p -> split "." (join "." p) = p.
Proof.
  induction p as [|x p IH]; [congruence|]. intros _ Hp.
  inversion Hp as [|? ? Hx Hp']; subst.
  destruct p as [|y p]; [now apply split_no_dot|].
  rewrite join_cons2, split_app_dot by assumption.
  now rewrite IH.
Qed.

Lemma to_upper_not_dot c : Ascii.eqb c "." = false -> Ascii.eqb (to_upper c) "." = false.
Proof.
  destruct c as [[] [] [] [] [] [] [] []]; vm_compute; congruence.
Qed.

Lemma upper_no_dot x : no_dot x = true -> no_dot (upper x) = true.
Proof.
  induction x as [|c x IH]; simpl; [reflexivity|].
  intros [Hc Hx]%andb_prop. apply negb_true_iff in Hc.
  now rewrite to_upper_not_dot, IH.
Qed.

End StrFacts.

(** ** The path mapper *)

Section PathMapperFacts.
Import Str PathMapper.

(** The only texts on which the format branch reads past the end of
    [parts] are the bare pair, with or without the root prefix. *)
Lemma map_parts_raises python_path e :
  map_parts python_path = Raises e -> python_path = "resource.formats".
Proof.
  unfold map_parts. intros H.
  rewrite <- (join_split python_path).
  destruct (split "." python_path) as [|a [|b [|c l]]]; simpl in H;
    try discriminate.
  - destruct (String.eqb_spec a "resource"); [|discriminate].
    destruct (String.eqb_spec b "formats"); [|discriminate].
    now subst.
  - destruct (String.eqb a "resource"); [|discriminate].
    destruct (String.eqb b "formats"); [|discriminate].
    destruct l; discriminate.
Qed.

Lemma map_python_to_csharp_raises python_path e :
  map_python_to_csharp python_path = Raises e ->
  python_path = "resource.formats" \/ python_path = "pykotor.resource.formats".
Proof.
  unfold map_python_to_csharp, startswith.
  destruct (String.prefix "pykotor." python_path) eqn:Hp.
  - intros H%map_parts_raises. right.
    do 8 (destruct python_path as [|? python_path]; [discriminate|]).
    simpl in H. subst python_path.
    simpl in Hp.
    repeat match type of Hp with
           | (if ?d then _ else _) = true =>
               destruct d; [subst|discriminate]
           end.
    reflexivity.
  - destruct (String.prefix "utility." python_path); [discriminate|].
    intros H%map_parts_raises. now left.
Qed.

Lemma of_segments_formats s3 rest :
  of_segments ("resource" :: "formats" :: s3 :: rest)
  = "resource" +:+ "." +:+ ("formats" +:+ "." +:+ join "." (s3 :: rest)).
Proof. reflexivity. Qed.

Lemma map_parts_formats s3 rest :
  no_dot s3 = true -> Forall (fun x => no_dot x = true) rest ->
  map_parts (of_segments ("resource" :: "formats" :: s3 :: rest))
  = Returns (join "." ("Formats" :: upper s3 :: rest)).
Proof.
  intros H3 Hrest. unfold map_parts.
  rewrite of_segments_formats, !split_app_dot by reflexivity.
  rewrite split_join by (try constructor; assumption || discriminate).
  destruct rest as [|y l]; reflexivity.
Qed.

(** C1 (as the code has it): the bare pair "resource", "formats" makes
    [map] raise IndexError, with and without the root prefix: the guard
    asks for more than one part and the branch reads the third. *)
Theorem map_raises_on_formats_pair :
  map ["resource"; "formats"] = Raises IndexError
  /\ map ["pykotor"; "resource"; "formats"] = Raises IndexError.
Proof. split; reflexivity. Qed.

(** C6: a path "resource", "formats", s3, rest... (with or without the
    root prefix) maps to "Formats", the upper-cased s3, and the remaining
    segments unchanged, joined by the separator.  The segment that is
    upper-cased is ASCII text, where [upper] is the [upper] of Python. *)
Theorem map_formats (s3 : string) (rest : list string) :
  is_ascii s3 = true ->
  no_dot s3 = true -> Forall (fun x => no_dot x = true) rest ->
  map ("resource" :: "formats" :: s3 :: rest)
  = Returns (join "." ("Formats" :: upper s3 :: rest))
  /\ map ("pykotor" :: "resource" :: "formats" :: s3 :: rest)
     = Returns (join "." ("Formats" :: upper s3 :: rest))
  /\ split "." (join "." ("Formats" :: upper s3 :: rest))
     = "Formats" :: upper s3 :: rest.
Proof.
  intros _ H3 Hrest. split; [|split].
  - unfold map, map_python_to_csharp.
    change (startswith _ "pykotor.") with false.
    change (startswith _ "utility.") with false.
    cbv iota. now apply map_parts_formats.
  - unfold map, map_python_to_csharp.
    change (startswith _ "pykotor.") with true.
    cbv iota.
    change (slice_from 8 _)
      with (of_segments ("resource" :: "formats" :: s3 :: rest)).
    now apply map_parts_formats.
  - apply split_join; [discriminate|].
    repeat constructor; auto using upper_no_dot.
Qed.

Lemma map_formats_witness :
  map ["resource"; "formats"; "gff"] = Returns "Formats.GFF"
  /\ map ["pykotor"; "resource"; "formats"; "gff"] = Returns "Formats.GFF"
  /\ split "." "Formats.GFF" = ["Formats"; "GFF"].
Proof.
  apply (map_formats "gff" []); [reflexivity | reflexivity | constructor].
Defined.

(** C7: a path whose first segment is "utility" maps to "Utility"
    followed by the remaining segments as they are. *)
Theorem map_utility (rest : list string) :
  map ("utility" :: rest) = Returns (join "." ("Utility" :: rest))
  /\ map ["utility"; "io"; "stream"] = Returns "Utility.io.stream".
Proof.
  split; [|reflexivity].
  destruct rest as [|y l]; [reflexivity|].
  unfold map, map_python_to_csharp.
  change (startswith _ "pykotor.") with false.
  assert (H : startswith (of_segments ("utility" :: y :: l)) "utility." = true).
  { change (String.prefix "" (join "." (y :: l)) = true).
    now destruct (join "." (y :: l)). }
  rewrite H. reflexivity.
Qed.

End PathMapperFacts.

(** ** The matcher *)

Section ReFacts.
Import Str Re.

Lemma star_greedy_sound k cont s : forall prev pos r,
  star_greedy k cont prev pos s = Some r ->
  exists w s', s = w ++ s' /\ forallb (in_class k) w = true
               /\ cont (last_of prev w) (pos + List.length w) s' = Some r.
Proof.
  induction s as [|c s IH]; intros prev pos r H; simpl in H.
  - exists [], []. simpl. rewrite Nat.add_0_r. auto.
  - destruct (in_class k c) eqn:Hc.
    + destruct (star_greedy k cont (Some c) (S pos) s) as [r'|] eqn:E.
      * injection H as ->. apply IH in E as (w & s' & -> & Hw & Hk).
        exists (c :: w), s'. simpl. rewrite Hc, Hw.
        rewrite <- Nat.add_succ_comm. auto.
      * exists [], (c :: s). simpl. rewrite Nat.add_0_r. auto.
    + exists [], (c :: s). simpl. rewrite Nat.add_0_r. auto.
Qed.

Lemma star_lazy_sound k cont s : forall prev pos r,
  star_lazy k cont prev pos s = Some r ->
  exists w s', s = w ++ s' /\ forallb (in_class k) w = true
               /\ cont (last_of prev w) (pos + List.length w) s' = Some r.
Proof.
  induction s as [|c s IH]; intros prev pos r H; simpl in H.
  - destruct (cont prev pos []) eqn:E; [|discriminate].
    injection H as ->. exists [], []. simpl. rewrite Nat.add_0_r. auto.
  - destruct (cont prev pos (c :: s)) eqn:E.
    + injection H as ->. exists [], (c :: s). simpl.
      rewrite Nat.add_0_r. auto.
    + destruct (in_class k c) eqn:Hc; [|discriminate].
      apply IH in H as (w & s' & -> & Hw & Hk).
      exists (c :: w), s'. simpl. rewrite Hc, Hw.
      rewrite <- Nat.add_succ_comm. auto.
Qed.

(** Whatever the matcher returns is a match. *)
Lemma match_here_sound p : forall caps prev pos s r,
  match_here p caps prev pos s = Some r -> matches p caps prev pos s r.
Proof.
  induction p as [|i p IH]; intros caps prev pos s r H; simpl in H.
  - now injection H as <-.
  - destruct i; simpl.
    + destruct (at_bol prev) eqn:E; [|discriminate]. auto.
    + destruct s as [|c' s]; [discriminate|].
      destruct (Ascii.eqb_spec c' c) as [->|]; [|discriminate].
      eauto.
    + apply star_greedy_sound in H as (w & s' & -> & Hw & Hk). eauto 6.
    + destruct s as [|c s]; [discriminate|].
      destruct (in_class k c) eqn:Hc; [|discriminate].
      apply star_greedy_sound in H as (w & s' & -> & Hw & Hk).
      exists (c :: w), s'. simpl. rewrite Hc, Hw.
      rewrite <- Nat.add_succ_comm. repeat split; auto; discriminate.
    + apply star_lazy_sound in H as (w & s' & -> & Hw & Hk). eauto 6.
    + auto.
    + auto.
Qed.

Lemma prev_at_app_length (pre s : list ascii) c :
  prev_at ((pre ++ [c]) ++ s) (S (List.length pre)) = Some c.
Proof.
  simpl. rewrite <- app_assoc. simpl.
  now rewrite list_lookup_middle.
Qed.

(** Every match object of the scan is a match of the pattern at its
    start offset. *)
Lemma scan_sound p s : forall pre prev pos skip m,
  pos = List.length pre -> prev = prev_at (pre ++ s) pos ->
  In m (scan p prev pos s skip) ->
  m_start m <= List.length (pre ++ s)
  /\ match_here p [] (prev_at (pre ++ s) (m_start m)) (m_start m)
                (skipn (m_start m) (pre ++ s))
     = Some (m_end m, m_marks m).
Proof.
  induction s as [|c s IH]; intros pre prev pos skip m Hpos Hprev Hin.
  - destruct skip; simpl in Hin; [|contradiction].
    destruct (match_here p [] prev pos []) as [[e caps]|] eqn:E;
      [|contradiction].
    destruct Hin as [<-|[]]. simpl. subst pos.
    rewrite <- Hprev, app_nil_r, drop_all. auto.
  - assert (Hnext : forall skip', In m (scan p (Some c) (S pos) s skip') ->
              m_start m <= List.length (pre ++ c :: s)
              /\ match_here p [] (prev_at (pre ++ c :: s) (m_start m)) (m_start m)
                   (skipn (m_start m) (pre ++ c :: s))
                 = Some (m_end m, m_marks m)).
    { intros skip' H.
      replace (pre ++ c :: s) with ((pre ++ [c]) ++ s)
        by (now rewrite <- app_assoc).
      apply (IH (pre ++ [c]) (Some c) (S pos) skip'); auto.
      - rewrite length_app. simpl. lia.
      - subst pos. now rewrite prev_at_app_length. }
    destruct skip; simpl in Hin; [|eauto].
    destruct (match_here p [] prev pos (c :: s)) as [[e caps]|] eqn:E;
      [|eauto].
    destruct Hin as [<-|Hin]; [|eauto].
    simpl. subst pos. rewrite length_app, drop_app_length, <- Hprev.
    split; [lia|assumption].
Qed.

Lemma finditer_sound p text m :
  In m (finditer p text) ->
  m_start m <= List.length text
  /\ matches p [] (prev_at text (m_start m)) (m_start m)
             (skipn (m_start m) text) (m_end m, m_marks m).
Proof.
  intros H. apply (scan_sound p text [] None 0 0 m) in H as [Hl H]; auto.
  split; [assumption|]. now apply match_here_sound.
Qed.

End ReFacts.

(** ** The patterns of the scripts *)

Section PatternFacts.
Import Str Re.

Lemma string_of_list_ascii_app (a b : list ascii) :
  string_of_list_ascii (a ++ b)
  = string_of_list_ascii a +:+ string_of_list_ascii b.
Proof. induction a as [|c a IH]; simpl; [reflexivity|now rewrite IH]. Qed.

(** The slice that lies after [a] in the text from [start] on. *)
Lemma slice_after (text : list ascii) start (a g b : list ascii) :
  skipn start text = a ++ g ++ b ->
  slice text (start + List.length a) (start + List.length a + List.length g) = g.
Proof.
  intros H. unfold slice.
  rewrite <- drop_drop, H, drop_app_length.
  replace (start + List.length a + List.length g - (start + List.length a))
    with (List.length g) by lia.
  now rewrite take_app_length.
Qed.

Lemma lookup_after (text : list ascii) start (w b : list ascii) i :
  skipn start text = w ++ b ->
  start <= i < start + List.length w ->
  exists c, text !! i = Some c /\ In c w.
Proof.
  intros H Hi.
  destruct (lookup_lt_is_Some_2 w (i - start)) as [c Hc]; [lia|].
  exists c. split.
  - replace i with (start + (i - start)) by lia.
    rewrite <- lookup_drop, H. now apply lookup_app_l_Some.
  - apply list_elem_of_In. eapply list_elem_of_lookup_2; eauto.
Qed.

(** What a match that starts with [^\s+def ] says about the text. *)
Lemma def_keyword_facts (text : list ascii) start (w tail : list ascii) d :
  skipn start text = w ++ list_ascii_of_string "def " ++ tail ->
  w <> [] -> forallb (in_class Space) w = true ->
  d = start + List.length w ->
  start < d
  /\ (forall i, start <= i < d ->
                exists c, text !! i = Some c /\ is_space c = true)
  /\ slice text d (d + 4) = list_ascii_of_string "def ".
Proof.
  intros H Hw Hsp ->. split; [|split].
  - destruct w; [congruence|simpl; lia].
  - intros i Hi. destruct (lookup_after _ _ _ _ i H Hi) as (c & Hc & Hin).
    exists c. split; [assumption|].
    rewrite forallb_forall in Hsp. now apply Hsp.
  - apply (slice_after text start w (list_ascii_of_string "def ") tail H).
Qed.

(** C9 (as the code has it): in an ASCII text every match of the
    function pattern, in either script, starts at a line start, and from
    there to the keyword the text holds white space only, at least one
    character of it.  A declaration at column 0 is therefore indexed only
    when the line before it is blank: the white space matched is then
    that line and its line feed. *)
Theorem def_follows_white_space (content : string) (m : match_obj) :
  is_ascii content = true ->
  In m (finditer Indexer.TEST_PATTERN (list_ascii_of_string content))
  \/ In m (finditer DiffReporter.DOC_PATTERN (list_ascii_of_string content)) ->
  at_bol (prev_at (list_ascii_of_string content) (m_start m)) = true
  /\ m_start m < def_offset m
  /\ (forall i, m_start m <= i < def_offset m ->
                exists c, list_ascii_of_string content !! i = Some c
                          /\ is_space c = true)
  /\ slice (list_ascii_of_string content) (def_offset m) (def_offset m + 4)
     = list_ascii_of_string "def ".
Proof.
  intros _ H. set (text := list_ascii_of_string content) in *.
  assert (Hex : exists w tail,
             at_bol (prev_at text (m_start m)) = true
             /\ skipn (m_start m) text = w ++ list_ascii_of_string "def " ++ tail
             /\ w <> [] /\ forallb (in_class Space) w = true
             /\ def_offset m = m_start m + List.length w).
  { destruct H as [H|H]; apply finditer_sound in H as [_ H].
    - unfold Indexer.TEST_PATTERN, lit in H. break_match H.
      injection H as _ Hmarks. subst.
      exists x. eexists. split; [assumption|].
      split; [simpl; exact Hm0|]. repeat split; auto.
      unfold def_offset, start_of. rewrite Hmarks. simpl. lia.
    - unfold DiffReporter.DOC_PATTERN, lit in H. break_match H.
      injection H as _ Hmarks. subst.
      exists x. eexists. split; [assumption|].
      split; [simpl; exact Hm0|]. repeat split; auto.
      unfold def_offset, start_of. rewrite Hmarks. simpl. lia. }
  destruct Hex as (w & tail & Hbol & Htext & Hw & Hsp & Hd).
  split; [assumption|].
  eapply def_keyword_facts; eauto.
Qed.

Lemma def_follows_white_space_witness :
  at_bol (prev_at (list_ascii_of_string Samples.blank_then_def)
                  (m_start Samples.blank_then_def_match)) = true
  /\ m_start Samples.blank_then_def_match < def_offset Samples.blank_then_def_match
  /\ (forall i,
        m_start Samples.blank_then_def_match <= i
                < def_offset Samples.blank_then_def_match ->
        exists c, list_ascii_of_string Samples.blank_then_def !! i = Some c
                  /\ is_space c = true)
  /\ slice (list_ascii_of_string Samples.blank_then_def)
           (def_offset Samples.blank_then_def_match)
           (def_offset Samples.blank_then_def_match + 4)
     = list_ascii_of_string "def ".
Proof.
  apply (def_follows_white_space Samples.blank_then_def
           Samples.blank_then_def_match); [reflexivity|].
  left. vm_compute. left. reflexivity.
Defined.

(** C9 (as stated) fails: in [Samples.blank_then_def] the declaration of
    [test_x] stands at column 0, after a blank line, and both scans
    return an entry for it; the white space the pattern asks for is the
    line feed of the blank line. *)
Lemma top_level_def_after_blank_line_is_indexed :
  finditer Indexer.TEST_PATTERN (list_ascii_of_string Samples.blank_then_def)
  = [Samples.blank_then_def_match]
  /\ def_offset Samples.blank_then_def_match = 11
  /\ at_column_0 (list_ascii_of_string Samples.blank_then_def)
                 Samples.blank_then_def_match = true
  /\ Indexer.extract_tests Samples.blank_then_def = [("Unknown", "test_x", "")]
  /\ DiffReporter.python_tests Samples.blank_then_documented_def
     = [("test_x", "Checks x.")].
Proof. vm_compute. auto 6. Qed.

End PatternFacts.

(** ** The indexer *)

Section IndexerFacts.
Import Str Re Indexer.

Lemma advance_lt fuel classes test_start : forall idx,
  idx < List.length classes ->
  advance fuel classes test_start idx < List.length classes.
Proof.
  induction fuel as [|fuel IH]; intros idx Hidx; simpl; [assumption|].
  destruct (idx <? List.length classes - 1) eqn:E; simpl; [|assumption].
  apply Nat.ltb_lt in E.
  destruct (classes !! (idx + 1)) as [[class_start ?]|]; [|assumption].
  destruct (class_start <? test_start); [|assumption].
  apply IH. lia.
Qed.

(** When some class was recorded, every entry carries the name of a
    recorded class: the sentinel is given only when no class was. *)
Lemma group_tests_named classes tests : forall idx e,
  idx < List.length classes ->
  In e (group_tests classes idx tests) ->
  exists c, In c classes /\ e.1.1 = c.2.
Proof.
  induction tests as [|[[test_start test_name] test_params] tests IH];
    intros idx e Hidx Hin; simpl in Hin; [contradiction|].
  pose proof (advance_lt (List.length classes) classes test_start idx Hidx) as Hlt.
  destruct Hin as [<-|Hin]; [|eauto].
  simpl. unfold class_at.
  apply Nat.ltb_lt in Hlt as Hb. rewrite Hb.
  destruct (lookup_lt_is_Some_2 classes _ Hlt) as [[o n] Hc].
  rewrite Hc. exists (o, n). split; [|reflexivity].
  apply list_elem_of_In. eapply list_elem_of_lookup_2; eauto.
Qed.

Lemma group_tests_no_class tests : forall idx e,
  In e (group_tests [] idx tests) -> e.1.1 = "Unknown".
Proof.
  induction tests as [|[[test_start test_name] test_params] tests IH];
    intros idx e Hin; simpl in Hin; [contradiction|].
  destruct Hin as [<-|Hin]; [|eauto].
  simpl. unfold class_at. simpl. now destruct (idx <? 0).
Qed.

Lemma started_before_le_length t classes :
  started_before t classes <= List.length classes.
Proof.
  induction classes as [|[o n] classes IH]; simpl; [lia|].
  destruct (o <? t); lia.
Qed.

Lemma started_before_mono t t' classes :
  t <= t' -> started_before t classes <= started_before t' classes.
Proof.
  intros Ht. induction classes as [|[o n] classes IH]; simpl; [lia|].
  destruct (Nat.ltb_spec o t), (Nat.ltb_spec o t'); lia.
Qed.

Lemma started_before_lookup t classes : forall i o n,
  classes !! i = Some (o, n) -> i < started_before t classes -> o < t.
Proof.
  induction classes as [|[o0 n0] classes IH]; intros i o n Hi Hlt;
    simpl in *; [lia|].
  destruct (Nat.ltb_spec o0 t); [|lia].
  destruct i as [|i]; simpl in Hi.
  - now injection Hi as -> ->.
  - eapply IH; eauto. lia.
Qed.

Lemma lookup_started_before t classes :
  StronglySorted (fun a b => a.1 < b.1) classes ->
  forall i o n, classes !! i = Some (o, n) -> o < t ->
                i < started_before t classes.
Proof.
  induction 1 as [|[o0 n0] classes Hs IH Hall]; intros i o n Hi Ho;
    [discriminate|].
  simpl. destruct i as [|i]; simpl in Hi.
  - injection Hi as -> ->. destruct (Nat.ltb_spec o t); lia.
  - assert (o0 < o).
    { rewrite List.Forall_forall in Hall.
      apply (Hall (o, n)), list_elem_of_In.
      eapply list_elem_of_lookup_2; eauto. }
    destruct (Nat.ltb_spec o0 t); [|lia].
    apply -> Nat.succ_lt_mono. eapply IH; eauto.
Qed.

(** The [while] stops at the last class that starts before the test, or
    stays at 0 when there is none; the fuel [len(classes)] is enough. *)
Lemma advance_reaches classes t :
  StronglySorted (fun a b => a.1 < b.1) classes ->
  forall fuel idx,
    idx <= started_before t classes - 1 ->
    started_before t classes - 1 - idx <= fuel ->
    advance fuel classes t idx = started_before t classes - 1.
Proof.
  intros Hs. pose proof (started_before_le_length t classes) as Hlen.
  induction fuel as [|fuel IH]; intros idx Hidx Hfuel; simpl; [lia|].
  destruct (Nat.eq_dec idx (started_before t classes - 1)) as [Heq|Hne].
  - destruct (Nat.ltb_spec idx (List.length classes - 1)); simpl; [|assumption].
    destruct (classes !! (idx + 1)) as [[o n]|] eqn:E; [|assumption].
    destruct (Nat.ltb_spec o t) as [Ho|]; [|assumption].
    pose proof (lookup_started_before t classes Hs _ _ _ E Ho). lia.
  - assert (Hlt : idx + 1 < started_before t classes) by lia.
    destruct (lookup_lt_is_Some_2 classes (idx + 1)) as [[o n] E]; [lia|].
    pose proof (started_before_lookup t classes _ _ _ E Hlt) as Ho.
    rewrite E. apply Nat.ltb_lt in Ho. rewrite Ho.
    assert (Hb : (idx <? List.length classes - 1) = true)
      by (apply Nat.ltb_lt; lia).
    rewrite Hb. simpl. apply IH; lia.
Qed.

(** The grouping loop on classes and tests in offset order. *)
Lemma group_tests_sorted classes :
  StronglySorted (fun a b => a.1 < b.1) classes ->
  forall tests idx,
    StronglySorted (fun a b => a.1.1 <= b.1.1) tests ->
    Forall (fun a => idx <= started_before a.1.1 classes - 1) tests ->
    group_tests classes idx tests
    = List.map (fun a => (class_of classes a.1.1, a.1.2, a.2)) tests.
Proof.
  intros Hs. induction tests as [|[[t name] params] tests IH];
    intros idx Hsorted Hidx; [reflexivity|].
  apply StronglySorted_inv in Hsorted as [Hsorted Hle].
  apply Forall_cons in Hidx as [Hhd Htl]. simpl in Hhd.
  pose proof (started_before_le_length t classes) as Hlen.
  simpl. rewrite (advance_reaches classes t Hs) by lia.
  f_equal. apply IH; [assumption|].
  rewrite List.Forall_forall in *. intros a Ha.
  specialize (Hle a Ha). simpl in Hle.
  pose proof (started_before_mono t a.1.1 classes Hle). lia.
Qed.

Lemma scan_ge p s : forall prev pos skip m,
  In m (scan p prev pos s skip) -> pos <= m_start m.
Proof.
  induction s as [|c s IH]; intros prev pos skip m Hin.
  - destruct skip; simpl in Hin; [|contradiction].
    destruct (match_here p [] prev pos []) as [[e caps]|]; [|contradiction].
    destruct Hin as [<-|[]]. simpl. lia.
  - destruct skip; simpl in Hin.
    + destruct (match_here p [] prev pos (c :: s)) as [[e caps]|].
      * destruct Hin as [<-|Hin]; [simpl; lia|].
        apply IH in Hin. lia.
      * apply IH in Hin. lia.
    + apply IH in Hin. lia.
Qed.

(** The matches of a scan come in strictly increasing start offsets. *)
Lemma scan_sorted p s : forall prev pos skip,
  StronglySorted (fun a b => m_start a < m_start b) (scan p prev pos s skip).
Proof.
  induction s as [|c s IH]; intros prev pos skip.
  - destruct skip; simpl; [|constructor].
    destruct (match_here p [] prev pos []) as [[e caps]|]; repeat constructor.
  - destruct skip; simpl; [|apply IH].
    destruct (match_here p [] prev pos (c :: s)) as [[e caps]|]; [|apply IH].
    constructor; [apply IH|].
    apply List.Forall_forall. intros m Hm. apply scan_ge in Hm. simpl. lia.
Qed.

Lemma sorted_map {A B} (f : A -> B) (R : A -> A -> Prop) (R' : B -> B -> Prop) l :
  (forall a b, R a b -> R' (f a) (f b)) ->
  StronglySorted R l -> StronglySorted R' (List.map f l).
Proof.
  intros Hf. induction 1 as [|a l Hs IH Hall]; simpl; constructor; auto.
  rewrite List.Forall_forall in *. intros b [a' [<- Ha']]%in_map_iff. auto.
Qed.

(** What [extract_tests] returns, for every text: each test the function
    pattern finds, in order, with the name [class_of] gives it: the last
    class that starts before it, the first class when none does, and the
    sentinel when no class was recorded. *)
Lemma extract_tests_text_spec (content : list ascii) :
  extract_tests_text content
  = List.map (fun a => (class_of (find_classes content) a.1.1, a.1.2, a.2))
             (find_tests content).
Proof.
  unfold extract_tests_text. apply group_tests_sorted.
  - unfold find_classes, finditer.
    eapply sorted_map; [|apply scan_sorted]. simpl. auto.
  - unfold find_tests, finditer.
    eapply sorted_map; [|apply scan_sorted]. simpl. lia.
  - apply List.Forall_forall. intros; lia.
Qed.

Lemma class_of_no_class t : class_of [] t = "Unknown".
Proof. reflexivity. Qed.

(** A test that starts before the first recorded class is given the name
    of that class. *)
Lemma class_of_before_first o n classes t :
  t <= o -> class_of ((o, n) :: classes) t = n.
Proof.
  intros Ht. unfold class_of. simpl.
  destruct (Nat.ltb_spec o t); [lia|]. reflexivity.
Qed.

(** C2 (as the code has it): in [Samples.test_before_first_class] the
    method [test_helper] starts at offset 14, before the only recorded
    class, at offset 55, and is given the name of that class, not the
    sentinel. *)
Theorem test_before_first_class_takes_its_name :
  find_classes (list_ascii_of_string Samples.test_before_first_class)
  = [(55, "TestFoo")]
  /\ find_tests (list_ascii_of_string Samples.test_before_first_class)
     = [(14, "test_helper", "self"); (70, "test_bar", "self")]
  /\ extract_tests Samples.test_before_first_class
     = [("TestFoo", "test_helper", "self"); ("TestFoo", "test_bar", "self")].
Proof. vm_compute. auto. Qed.

(** C8: when the origin test file is absent, [main] prints nothing on
    the standard output, prints the diagnostic that names the path on the
    error stream, and exits with status 1. *)
Theorem main_missing_input (fs : file_system) :
  fs !! python_file = None ->
  main fs =
  {| stdout := [];
     stderr := ["Error: vendor/PyKotor/Tools/HolocronToolset/tests/gui/windows/test_indoor_builder.py not found"];
     uncaught := None;
     exit_code := 1 |}.
Proof. intros H. unfold main. now rewrite H. Qed.

Lemma main_missing_input_witness :
  main ∅ =
  {| stdout := [];
     stderr := ["Error: vendor/PyKotor/Tools/HolocronToolset/tests/gui/windows/test_indoor_builder.py not found"];
     uncaught := None;
     exit_code := 1 |}.
Proof. apply (main_missing_input ∅). reflexivity. Defined.

End IndexerFacts.

(** ** The diff reporter *)

Section DiffReporterFacts.
Import Str Re DiffReporter.

Lemma missing_filter entries (marker_set : gset string) :
  missing entries marker_set = filter (fun e => e.1 ∉ marker_set) entries.
Proof.
  induction entries as [|[name doc] entries IH]; [reflexivity|].
  simpl. rewrite filter_cons, IH. simpl.
  destruct (decide (name ∉ marker_set)) as [H|H].
  - now rewrite bool_decide_eq_true_2.
  - now rewrite bool_decide_eq_false_2.
Qed.

(** C3 (as the code has it): the method of [Samples.test_without_doc]
    matches the function pattern, and the extracting script lists it;
    the first loop of this script, whose pattern asks for the quotes of
    the documentation block, returns no entry for it, so it is counted
    neither in the total nor among the missing tests. *)
Theorem undocumented_test_is_dropped :
  Indexer.extract_tests Samples.test_without_doc
  = [("TestFoo", "test_bar", "self")]
  /\ python_tests Samples.test_without_doc = []
  /\ script Samples.test_without_doc ""
     = ["Total Python tests: 0"; "Ported: 0"; "Missing: 0";
        String LF "Missing test names:"].
Proof. vm_compute. auto. Qed.

(** C4: the missing sequence is the input sequence filtered, in input
    order, by the names absent from the marker set; with the entries
    whose name is in the marker set it makes up the input, and its length
    is the length of the input minus the number of those entries. *)
Theorem missing_is_ordered_difference
    (entries : list (string * string)) (ported_text : string) :
  missing_entries (diff entries ported_text)
  = filter (fun e => e.1 ∉ ported ported_text) entries
  /\ sublist (missing_entries (diff entries ported_text)) entries
  /\ (forall e, e ∈ missing_entries (diff entries ported_text)
                <-> e ∈ entries /\ e.1 ∉ ported ported_text)
  /\ missing_entries (diff entries ported_text)
     ++ filter (fun e => e.1 ∈ ported ported_text) entries ≡ₚ entries
  /\ List.length (missing_entries (diff entries ported_text))
     = List.length entries
       - List.length (filter (fun e => e.1 ∈ ported ported_text) entries).
Proof.
  simpl. set (marker_set := ported ported_text).
  rewrite missing_filter.
  assert (Hperm : filter (fun e : string * string => e.1 ∉ marker_set) entries
                  ++ filter (fun e => e.1 ∈ marker_set) entries ≡ₚ entries).
  { rewrite Permutation_app_comm.
    apply (filter_app_complement (fun e : string * string => e.1 ∈ marker_set)). }
  split; [reflexivity|]. split; [apply sublist_filter|].
  split; [intros e; rewrite list_elem_of_filter; tauto|].
  split; [exact Hperm|].
  apply Permutation_length in Hperm. rewrite length_app in Hperm. lia.
Qed.

Lemma size_ported ported_text :
  size (ported ported_text) = List.length (remove_dups (ported_names ported_text)).
Proof.
  unfold ported.
  rewrite <- (size_list_to_set (C := gset string) (remove_dups _))
    by apply NoDup_remove_dups.
  f_equal. apply set_eq. intros x.
  now rewrite !elem_of_list_to_set, elem_of_remove_dups.
Qed.

(** C5: the total is the number of entries, the ported count is the
    number of distinct names the marker scan recovers; with the marker of
    test_bar twice in the ported text and the entries test_bar and
    test_baz, the total is 2, the ported count 1, and test_baz alone is
    missing. *)
Theorem diff_counts (entries : list (string * string)) (ported_text : string) :
  total (diff entries ported_text) = List.length entries
  /\ ported_count (diff entries ported_text) = size (ported ported_text)
  /\ ported_count (diff entries ported_text)
     = List.length (remove_dups (ported_names ported_text))
  /\ ported_names Samples.two_markers = ["test_bar"; "test_bar"]
  /\ forall doc_bar doc_baz,
       diff [("test_bar", doc_bar); ("test_baz", doc_baz)] Samples.two_markers
       = {| total := 2; ported_count := 1;
            missing_entries := [("test_baz", doc_baz)] |}.
Proof.
  split; [reflexivity|]. split; [reflexivity|].
  split; [apply size_ported|].
  split; [vm_compute; reflexivity|].
  intros doc_bar doc_baz. vm_compute. reflexivity.
Qed.

(** C10: every name of the marker set of an ASCII ported text is test_
    followed by at least one word character, and stands in the ported
    text between the marker text and an opening parenthesis. *)
Theorem ported_names_shape (csharp_content name : string) :
  is_ascii csharp_content = true ->
  name ∈ ported csharp_content ->
  exists w,
    name = "test_" +:+ w /\ w <> ""
    /\ Forall (fun c => is_word c = true) (list_ascii_of_string w)
    /\ exists pre post,
         csharp_content = pre +:+ "// Original: def " +:+ name +:+ "(" +:+ post.
Proof.
  intros _. unfold ported. rewrite elem_of_list_to_set, list_elem_of_In.
  unfold ported_names, findall. rewrite in_map_iff.
  intros (m & <- & Hm). set (text := list_ascii_of_string csharp_content) in *.
  apply finditer_sound in Hm as [_ Hm].
  unfold PORTED_PATTERN, lit in Hm. break_match Hm.
  injection Hm as _ Hmarks. subst.
  match goal with
  | Hw : ?w <> [], H : skipn _ text = ?rhs |- _ =>
      match rhs with
      | context [w ++ _ :: ?post] =>
          rename H into Htext; rename w into word; rename post into tail
      end
  end.
  assert (Hgroup : group text m 1
                   = "test_" +:+ string_of_list_ascii word).
  { unfold group, start_of, end_of. rewrite Hmarks. simpl mark_of.
    pose proof (slice_after text (m_start m)
                  (list_ascii_of_string "// Original: def ")
                  (list_ascii_of_string "test_" ++ word)
                  ("("%char :: tail)) as Hs.
    simpl in Hs.
    specialize (Hs Htext).
    match goal with
    | |- string_of_list_ascii (slice text ?b ?e) = _ =>
        replace b with (m_start m + 17) by lia;
        replace e with (m_start m + 17 + S (S (S (S (S (List.length word))))))
          by lia
    end.
    rewrite Hs. reflexivity. }
  exists (string_of_list_ascii word). rewrite Hgroup.
  split; [reflexivity|]. split; [|split].
  - destruct word; [congruence|discriminate].
  - rewrite list_ascii_of_string_of_list_ascii.
    apply List.Forall_forall.
    match goal with
    | H : forallb _ word = true |- _ => now apply forallb_forall
    end.
  - exists (string_of_list_ascii (firstn (m_start m) text)),
           (string_of_list_ascii tail).
    rewrite <- (string_of_list_ascii_of_string csharp_content).
    fold text. rewrite <- (take_drop (m_start m) text) at 1.
    rewrite Htext, string_of_list_ascii_app. f_equal.
    simpl. repeat f_equal.
    rewrite string_of_list_ascii_app. reflexivity.
Qed.

Lemma ported_names_shape_witness :
  exists w,
    "test_bar" = "test_" +:+ w /\ w <> ""
    /\ Forall (fun c => is_word c = true) (list_ascii_of_string w)
    /\ exists pre post,
         Samples.two_markers
         = pre +:+ "// Original: def " +:+ "test_bar" +:+ "(" +:+ post.
Proof.
  apply (ported_names_shape Samples.two_markers "test_bar"); [reflexivity|].
  unfold ported. apply elem_of_list_to_set.
  replace (ported_names Samples.two_markers) with ["test_bar"; "test_bar"]
    by (vm_compute; reflexivity).
  apply list_elem_of_here.
Defined.

(** A text without a double quote yields no entry at all: the pattern of
    the first loop asks for the quotes of a documentation block. *)
Lemma python_tests_need_quotes (python_content : string) :
  ~ In QUOTE (list_ascii_of_string python_content) ->
  python_tests python_content = [].
Proof.
  intros Hq. unfold python_tests, python_tests_text.
  set (text := list_ascii_of_string python_content) in *.
  destruct (finditer DOC_PATTERN text) as [|m l] eqn:E; [reflexivity|].
  exfalso. apply Hq.
  assert (Hm : In m (finditer DOC_PATTERN text)) by (rewrite E; now left).
  apply finditer_sound in Hm as [_ Hm].
  unfold DOC_PATTERN, lit in Hm. break_match Hm.
  subst.
  match goal with
  | H : skipn ?n text = ?rhs |- _ =>
      rewrite <- (take_drop n text), H
  end.
  repeat (apply in_or_app; right; simpl;
          repeat (try (left; reflexivity); right)).
Qed.

End DiffReporterFacts.

(** * Further properties of the scripts *)

(** ** analyze_porting_status.py: [map_python_to_csharp] *)

Section PathMapperMore.
Import Str PathMapper.

Lemma prefix_cons a s1 b s2 :
  String.prefix (String a s1) (String b s2)
  = if ascii_dec a b then String.prefix s1 s2 else false.
Proof. reflexivity. Qed.

(** A text that starts with a segment and the separator starts with that
    segment: segments hold no separator. *)
Lemma prefix_segment pre : forall x t,
  no_dot pre = true -> no_dot x = true ->
  (t = "" \/ exists t', t = String "." t') ->
  String.prefix (pre +:+ ".") (x +:+ t) = true -> x = pre.
Proof.
  induction pre as [|a pre IH]; intros x t Hpre Hx Ht H.
  - destruct x as [|c x]; [reflexivity|].
    change (String.prefix (String "." "") (String c (x +:+ t)) = true) in H.
    rewrite prefix_cons in H. simpl in Hx.
    destruct (ascii_dec "." c) as [<-|]; [|discriminate].
    simpl in Hx. discriminate.
  - simpl in Hpre. apply andb_prop in Hpre as [Ha Hpre].
    destruct x as [|c x].
    + destruct Ht as [->|[t' ->]]; [discriminate|].
      change (String.prefix (String a (pre +:+ ".")) (String "." t') = true) in H.
      rewrite prefix_cons in H.
      destruct (ascii_dec a ".") as [->|]; [|discriminate].
      simpl in Ha. discriminate.
    + change (String.prefix (String a (pre +:+ ".")) (String c (x +:+ t)) = true) in H.
      rewrite prefix_cons in H.
      simpl in Hx. apply andb_prop in Hx as [_ Hx].
      destruct (ascii_dec a c) as [->|]; [|discriminate].
      f_equal. eapply IH; eauto.
Qed.

Lemma join_cons_tail x rest :
  exists t, join "." (x :: rest) = x +:+ t
            /\ (t = "" \/ exists t', t = String "." t').
Proof.
  destruct rest as [|y l].
  - exists "". split; [|now left]. change (x = x +:+ "").
    induction x as [|a x IH]; [reflexivity|].
    change (String a x = String a (x +:+ "")). now rewrite <- IH.
  - exists ("." +:+ join "." (y :: l)). split; [reflexivity|].
    right. eexists. reflexivity.
Qed.

Lemma startswith_segment pre x rest :
  no_dot pre = true -> no_dot x = true ->
  startswith (of_segments (x :: rest)) (pre +:+ ".") = true -> x = pre.
Proof.
  intros Hpre Hx H. unfold startswith, of_segments in H.
  destruct (join_cons_tail x rest) as (t & Ht & Hshape).
  rewrite Ht in H. eapply prefix_segment; eauto.
Qed.

(** The generic rule on the parts of a path that is not a format path. *)
Lemma map_parts_generic (p : list string) :
  Forall (fun x => no_dot x = true) p -> p <> [] ->
  (forall rest, p <> "resource" :: "formats" :: rest) ->
  map_parts (of_segments p) = Returns (join "." (List.map title p)).
Proof.
  intros Hp Hne Hfmt. unfold map_parts, of_segments.
  rewrite split_join by assumption.
  destruct p as [|a [|b l]]; [congruence|reflexivity|].
  simpl. destruct (String.eqb_spec a "resource") as [->|]; [|reflexivity].
  destruct (String.eqb_spec b "formats") as [->|]; [|reflexivity].
  now destruct (Hfmt l).
Qed.

(** X1: a path of ASCII segments whose first segment is neither prefix and
    which is not a format path is mapped by the generic rule: every
    segment title-cased, joined by the separator. *)
Theorem map_generic_rule (p : list string) :
  forallb is_ascii p = true ->
  Forall (fun x => no_dot x = true) p -> p <> [] ->
  hd "" p <> "pykotor" -> hd "" p <> "utility" ->
  (forall rest, p <> "resource" :: "formats" :: rest) ->
  map p = Returns (join "." (List.map title p)).
Proof.
  intros _ Hp Hne Hroot Hutil Hfmt.
  destruct p as [|x rest]; [congruence|]. simpl in Hroot, Hutil.
  inversion Hp as [|? ? Hx _]; subst.
  unfold map, map_python_to_csharp.
  destruct (startswith (of_segments (x :: rest)) "pykotor.") eqn:E1.
  { apply (startswith_segment "pykotor") in E1; auto. congruence. }
  destruct (startswith (of_segments (x :: rest)) "utility.") eqn:E2.
  { apply (startswith_segment "utility") in E2; auto. congruence. }
  now apply map_parts_generic.
Qed.

Lemma map_generic_rule_witness :
  map ["common"; "geometry_utils"] = Returns "Common.Geometry_Utils".
Proof.
  apply (map_generic_rule ["common"; "geometry_utils"]);
    try discriminate; [reflexivity|].
  repeat constructor.
Defined.

(** X2: under the root prefix the rest of the path, of ASCII segments, is
    mapped by the generic rule unless it is a format path; the utility
    rule is not tried again, so a utility path under the root prefix is
    title-cased. *)
Theorem map_under_root_prefix (p : list string) :
  forallb is_ascii p = true ->
  Forall (fun x => no_dot x = true) p -> p <> [] ->
  (forall rest, p <> "resource" :: "formats" :: rest) ->
  map ("pykotor" :: p) = Returns (join "." (List.map title p)).
Proof.
  intros _ Hp Hne Hfmt. destruct p as [|x rest]; [congruence|].
  unfold map, map_python_to_csharp.
  assert (H : startswith (of_segments ("pykotor" :: x :: rest)) "pykotor." = true).
  { change (String.prefix "" (join "." (x :: rest)) = true).
    now destruct (join "." (x :: rest)). }
  rewrite H.
  change (slice_from 8 _) with (of_segments (x :: rest)).
  now apply map_parts_generic.
Qed.

Lemma map_under_root_prefix_witness :
  map ["pykotor"; "utility"; "io"] = Returns "Utility.Io".
Proof.
  apply (map_under_root_prefix ["utility"; "io"]); try discriminate;
    [reflexivity|].
  repeat constructor.
Defined.

(** X3: [map_python_to_csharp] raises on exactly two texts, the bare
    format pair with and without the root prefix; on every other text it
    returns. *)
Theorem map_raises_iff (python_path : string) :
  (exists e, map_python_to_csharp python_path = Raises e)
  <-> python_path = "resource.formats"
      \/ python_path = "pykotor.resource.formats".
Proof.
  split.
  - intros [e He]. eapply map_python_to_csharp_raises; eauto.
  - intros [->| ->]; exists IndexError; reflexivity.
Qed.

End PathMapperMore.

(** ** extract-indoor-builder-tests.py: [extract_tests] and the entry point *)

Section IndexerMore.
Import Str Re Indexer.

Lemma group_text (text : list ascii) m g start (a gtxt b : list ascii) :
  skipn start text = a ++ gtxt ++ b ->
  start_of m g = start + List.length a ->
  end_of m g = start + List.length a + List.length gtxt ->
  group text m g = string_of_list_ascii gtxt.
Proof.
  intros H Hs He. unfold group. rewrite Hs, He. f_equal.
  eapply slice_after; eauto.
Qed.

(** What a match of the class pattern says about the text. *)
Lemma class_match_shape (text : list ascii) m :
  In m (finditer CLASS_PATTERN text) ->
  exists w tail,
    skipn (m_start m) text
    = list_ascii_of_string "class Test" ++ w ++ ":"%char :: tail
    /\ w <> [] /\ forallb (in_class Word) w = true
    /\ group text m 1 = "Test" +:+ string_of_list_ascii w.
Proof.
  intros H. apply finditer_sound in H as [_ H].
  unfold CLASS_PATTERN, lit in H. break_match H.
  injection H as _ Hmarks. subst.
  exists x9, x11. split; [exact Hm0|]. repeat split; auto.
  apply (group_text text m 1 (m_start m) (list_ascii_of_string "class ")
           (list_ascii_of_string "Test" ++ x9) (":"%char :: x11)).
  - exact Hm0.
  - unfold start_of. rewrite Hmarks. simpl. lia.
  - unfold end_of. rewrite Hmarks. simpl. lia.
Qed.

(** What a match of the function pattern says about the text. *)
Lemma test_match_shape (text : list ascii) m :
  In m (finditer TEST_PATTERN text) ->
  exists ws w params tail,
    skipn (m_start m) text
    = ws ++ list_ascii_of_string "def test_" ++ w ++ "("%char :: params
         ++ ")"%char :: ":"%char :: tail
    /\ ws <> [] /\ forallb (in_class Space) ws = true
    /\ w <> [] /\ forallb (in_class Word) w = true
    /\ forallb (in_class (NotChar ")")) params = true
    /\ group text m 1 = "test_" +:+ string_of_list_ascii w
    /\ group text m 2 = string_of_list_ascii params.
Proof.
  intros H. apply finditer_sound in H as [_ H].
  unfold TEST_PATTERN, lit in H. break_match H.
  injection H as _ Hmarks. subst.
  exists x, x10, x13, x16. split; [exact Hm0|]. repeat split; auto.
  - apply (group_text text m 1 (m_start m) (x ++ list_ascii_of_string "def ")
             (list_ascii_of_string "test_" ++ x10)
             ("("%char :: x13 ++ ")"%char :: ":"%char :: x16)).
    + rewrite Hm0, <- app_assoc. reflexivity.
    + unfold start_of. rewrite Hmarks, length_app. simpl. lia.
    + unfold end_of. rewrite Hmarks, length_app. simpl. lia.
  - apply (group_text text m 2 (m_start m)
             (x ++ list_ascii_of_string "def test_" ++ x10 ++ ["("%char])
             x13 (")"%char :: ":"%char :: x16)).
    + rewrite Hm0. repeat rewrite <- app_assoc. reflexivity.
    + unfold start_of. rewrite Hmarks, ?length_app. simpl.
      rewrite ?length_app. simpl. lia.
    + unfold end_of. rewrite Hmarks, ?length_app. simpl.
      rewrite ?length_app. simpl. lia.
Qed.

Lemma find_classes_sorted (content : list ascii) :
  StronglySorted (fun a b => a.1 < b.1) (find_classes content).
Proof.
  unfold find_classes, finditer.
  eapply sorted_map; [|apply scan_sorted]. simpl. auto.
Qed.

(** X4: for every text, [extract_tests] returns one entry per match of
    the function pattern, in the order of the matches, with the name and
    the parameter text of the match, and with the class [class_of] gives
    the start offset of the match. *)
Theorem extract_tests_spec (content : string) :
  extract_tests content
  = List.map (fun a => (class_of (find_classes (list_ascii_of_string content)) a.1.1,
                        a.1.2, a.2))
             (find_tests (list_ascii_of_string content)).
Proof. apply extract_tests_text_spec. Qed.

(** X5: a test that starts after the start of a recorded class, and not
    after the start of the next recorded class, is given the name of that
    class. *)
Theorem class_of_last_before (content : string) (i o t : nat) (n : string) :
  find_classes (list_ascii_of_string content) !! i = Some (o, n) ->
  o < t ->
  (forall o' n', find_classes (list_ascii_of_string content) !! (S i) = Some (o', n')
                 -> t <= o') ->
  class_of (find_classes (list_ascii_of_string content)) t = n.
Proof.
  set (classes := find_classes (list_ascii_of_string content)).
  intros Hi Ho Hnext.
  pose proof (find_classes_sorted (list_ascii_of_string content)) as Hs.
  fold classes in Hs.
  pose proof (lookup_started_before t classes Hs _ _ _ Hi Ho) as Hlt.
  pose proof (started_before_le_length t classes) as Hlen.
  assert (Hsb : started_before t classes = S i).
  { destruct (Nat.eq_dec (started_before t classes) (S i)) as [|Hne];
      [assumption|exfalso].
    destruct (lookup_lt_is_Some_2 classes (S i)) as [[o' n'] E]; [lia|].
    assert (o' < t) by (eapply started_before_lookup; eauto; lia).
    specialize (Hnext _ _ E). lia. }
  unfold class_of, class_at. rewrite Hsb. simpl. rewrite Nat.sub_0_r, Hi.
  apply lookup_lt_Some in Hi. apply Nat.ltb_lt in Hi. now rewrite Hi.
Qed.

Lemma class_of_last_before_witness :
  class_of (find_classes (list_ascii_of_string Samples.test_before_first_class)) 70
  = "TestFoo".
Proof.
  apply (class_of_last_before Samples.test_before_first_class 0 55 70 "TestFoo").
  - vm_compute. reflexivity.
  - lia.
  - intros o' n' H. vm_compute in H. discriminate.
Defined.

(** X6: the offsets of the recorded classes are strictly increasing, and
    so are the offsets of the recorded tests. *)
Theorem found_offsets_increase (content : string) :
  StronglySorted (fun a b => a.1 < b.1)
                 (find_classes (list_ascii_of_string content))
  /\ StronglySorted (fun a b => a.1.1 < b.1.1)
                    (find_tests (list_ascii_of_string content)).
Proof.
  split; [apply find_classes_sorted|].
  unfold find_tests, finditer.
  eapply sorted_map; [|apply scan_sorted]. simpl. auto.
Qed.

(** X7: no recorded class starts at the offset where a recorded test
    starts: a class match starts with the letter c, a test match with a
    white-space character. *)
Theorem class_and_test_offsets_differ (content : string)
    (c : nat * string) (t : nat * string * string) :
  In c (find_classes (list_ascii_of_string content)) ->
  In t (find_tests (list_ascii_of_string content)) ->
  c.1 <> t.1.1.
Proof.
  set (text := list_ascii_of_string content).
  unfold find_classes, find_tests.
  intros (mc & <- & Hc)%in_map_iff (mt & <- & Ht)%in_map_iff. simpl.
  apply class_match_shape in Hc as (w & tail & Hc & _).
  apply test_match_shape in Ht as (ws & w' & params & tail' & Ht & Hne & Hsp & _).
  intros Heq. rewrite Heq, Ht in Hc.
  destruct ws as [|c0 ws]; [congruence|].
  simpl in Hc, Hsp. injection Hc as -> _. discriminate.
Qed.

Lemma class_and_test_offsets_differ_witness :
  (55, "TestFoo").1 <> (14, "test_helper", "self").1.1.
Proof.
  apply (class_and_test_offsets_differ Samples.test_before_first_class
           (55, "TestFoo") (14, "test_helper", "self"));
    vm_compute; auto.
Defined.

Lemma forallb_Forall_string (f : ascii -> bool) (w : list ascii) :
  forallb f w = true ->
  Forall (fun c => f c = true) (list_ascii_of_string (string_of_list_ascii w)).
Proof.
  intros H. rewrite list_ascii_of_string_of_list_ascii.
  apply List.Forall_forall. now apply forallb_forall.
Qed.

Lemma string_of_list_ascii_nonempty (w : list ascii) :
  w <> [] -> string_of_list_ascii w <> "".
Proof. destruct w; [congruence|discriminate]. Qed.

(** X8: every entry [extract_tests] returns for an ASCII text has a
    function name made of test_ and at least one word character, a
    parameter text without a closing parenthesis, and a class that is the
    sentinel or Test followed by at least one word character. *)
Theorem extract_tests_entry_shape (content : string) (cls name params : string) :
  is_ascii content = true ->
  In (cls, name, params) (extract_tests content) ->
  (exists w, name = "test_" +:+ w /\ w <> ""
             /\ Forall (fun c => is_word c = true) (list_ascii_of_string w))
  /\ ~ In ")"%char (list_ascii_of_string params)
  /\ (cls = "Unknown"
      \/ exists w, cls = "Test" +:+ w /\ w <> ""
                   /\ Forall (fun c => is_word c = true) (list_ascii_of_string w)).
Proof.
  intros _. unfold extract_tests. rewrite extract_tests_text_spec.
  set (text := list_ascii_of_string content).
  intros ([[t name'] params'] & Heq & Hin)%in_map_iff.
  simpl in Heq. injection Heq as <- <- <-.
  unfold find_tests in Hin. apply in_map_iff in Hin as (m & Hm & Hin).
  injection Hm as _ <- <-.
  apply test_match_shape in Hin
    as (ws & w & ps & tail & _ & _ & _ & Hw & Hword & Hps & -> & ->).
  split; [|split].
  - exists (string_of_list_ascii w).
    auto using string_of_list_ascii_nonempty, forallb_Forall_string.
  - rewrite list_ascii_of_string_of_list_ascii. intros Hin.
    rewrite forallb_forall in Hps. apply Hps in Hin. discriminate.
  - unfold class_of, class_at.
    destruct (_ <? _); [|now left].
    destruct (find_classes text !! _) as [[o n]|] eqn:E; [|now left].
    right. apply list_elem_of_lookup_2, list_elem_of_In in E.
    unfold find_classes in E. apply in_map_iff in E as (mc & Hmc & Hc).
    injection Hmc as _ <-.
    apply class_match_shape in Hc as (w' & tail' & _ & Hw' & Hword' & ->).
    exists (string_of_list_ascii w').
    auto using string_of_list_ascii_nonempty, forallb_Forall_string.
Qed.

Lemma extract_tests_entry_shape_witness :
  (exists w, "test_bar" = "test_" +:+ w /\ w <> ""
             /\ Forall (fun c => is_word c = true) (list_ascii_of_string w))
  /\ ~ In ")"%char (list_ascii_of_string "self")
  /\ ("TestFoo" = "Unknown"
      \/ exists w, "TestFoo" = "Test" +:+ w /\ w <> ""
                   /\ Forall (fun c => is_word c = true) (list_ascii_of_string w)).
Proof.
  apply (extract_tests_entry_shape Samples.test_without_doc
           "TestFoo" "test_bar" "self"); [reflexivity|].
  vm_compute. auto.
Defined.



(** When what stands at the path cannot be read as a text, the entry
    point prints nothing, ends on the exception [read_text] raises, and
    exits with status 1. *)
Lemma main_unreadable_input (fs : file_system) (e : exn) :
  fs !! python_file = Some (Unreadable e) ->
  main fs = {| stdout := []; stderr := []; uncaught := Some e; exit_code := 1 |}.
Proof. intros H. unfold main. now rewrite H. Qed.



(** X20: an entry carries the sentinel exactly when the class pattern
    recorded no class at all in the text. *)
Theorem unknown_only_without_classes (content cls name params : string) :
  In (cls, name, params) (extract_tests content) ->
  (cls = "Unknown" <-> find_classes (list_ascii_of_string content) = []).
Proof.
  unfold extract_tests, extract_tests_text. intros Hin. split.
  - intros ->.
    destruct (find_classes (list_ascii_of_string content)) as [|c0 l] eqn:E;
      [reflexivity|exfalso].
    apply group_tests_named in Hin as (c & Hc & Hname); [|simpl; lia].
    rewrite <- E in Hc. unfold find_classes in Hc.
    apply in_map_iff in Hc as (m & <- & Hm).
    apply class_match_shape in Hm as (w & tail & _ & _ & _ & Hg).
    simpl in Hname. rewrite Hg in Hname. discriminate.
  - intros E. rewrite E in Hin. now apply group_tests_no_class in Hin.
Qed.

Lemma unknown_only_without_classes_witness :
  "Unknown" = "Unknown"
  <-> find_classes (list_ascii_of_string Samples.blank_then_def) = [].
Proof.
  apply (unknown_only_without_classes Samples.blank_then_def
           "Unknown" "test_x" "").
  vm_compute. auto.
Defined.

End IndexerMore.

(** ** The matcher finds a match where there is one *)

Section ReComplete.
Import Str Re.

Lemma star_greedy_complete k cont w : forall s' prev pos,
  forallb (in_class k) w = true ->
  is_Some (cont (last_of prev w) (pos + List.length w) s') ->
  is_Some (star_greedy k cont prev pos (w ++ s')).
Proof.
  induction w as [|c w IH]; intros s' prev pos Hw Hk; simpl in *.
  - rewrite Nat.add_0_r in Hk. destruct s' as [|c s']; simpl; [assumption|].
    destruct (in_class k c); [|assumption].
    destruct (star_greedy k cont (Some c) (S pos) s'); [eauto|assumption].
  - apply andb_prop in Hw as [Hc Hw]. rewrite Hc.
    rewrite <- Nat.add_succ_comm in Hk.
    destruct (IH s' (Some c) (S pos) Hw Hk) as [r Hr]. rewrite Hr. eauto.
Qed.

Lemma star_lazy_complete k cont w : forall s' prev pos,
  forallb (in_class k) w = true ->
  is_Some (cont (last_of prev w) (pos + List.length w) s') ->
  is_Some (star_lazy k cont prev pos (w ++ s')).
Proof.
  induction w as [|c w IH]; intros s' prev pos Hw Hk; simpl in *.
  - rewrite Nat.add_0_r in Hk. destruct Hk as [r Hr].
    destruct s'; simpl; rewrite Hr; eauto.
  - apply andb_prop in Hw as [Hc Hw].
    destruct (cont prev pos (c :: w ++ s')); [eauto|]. rewrite Hc.
    rewrite <- Nat.add_succ_comm in Hk. now apply IH.
Qed.

(** Where the pattern matches, the matcher returns a match. *)
Lemma match_here_complete p : forall caps prev pos s r,
  matches p caps prev pos s r -> is_Some (match_here p caps prev pos s).
Proof.
  induction p as [|i p IH]; intros caps prev pos s r H; simpl in *; [eauto|].
  destruct i.
  - destruct H as [-> H]. eauto.
  - destruct H as (s' & -> & H). rewrite Ascii.eqb_refl. eauto.
  - destruct H as (w & s' & -> & Hw & H).
    apply star_greedy_complete; eauto.
  - destruct H as (w & s' & -> & Hne & Hw & H).
    destruct w as [|c w]; [congruence|]. simpl in *.
    apply andb_prop in Hw as [Hc Hw]. rewrite Hc.
    apply star_greedy_complete; [assumption|].
    rewrite Nat.add_succ_comm. eauto.
  - destruct H as (w & s' & -> & Hw & H).
    apply star_lazy_complete; eauto.
  - eauto.
  - eauto.
Qed.

(** A match at an offset is in the scan unless the offset lies strictly
    inside an earlier match of the scan. *)
Lemma scan_complete p s : forall pre prev pos skip i e caps,
  pos = List.length pre -> prev = prev_at (pre ++ s) pos ->
  pos + skip <= i <= List.length (pre ++ s) ->
  match_here p [] (prev_at (pre ++ s) i) i (skipn i (pre ++ s)) = Some (e, caps) ->
  In (MatchObj i e caps) (scan p prev pos s skip)
  \/ exists m, In m (scan p prev pos s skip) /\ m_start m < i < m_end m.
Proof.
  induction s as [|c s IH]; intros pre prev pos skip i e caps Hpos Hprev Hi Hm.
  - rewrite app_nil_r in *. assert (i = pos) as -> by lia.
    assert (skip = 0) as -> by lia. simpl.
    subst pos. rewrite drop_all, <- Hprev in Hm. rewrite Hm. left. now left.
  - assert (Hnext : forall skip', S pos + skip' <= i ->
              In (MatchObj i e caps) (scan p (Some c) (S pos) s skip')
              \/ exists m, In m (scan p (Some c) (S pos) s skip')
                           /\ m_start m < i < m_end m).
    { intros skip' Hle.
      replace (pre ++ c :: s) with ((pre ++ [c]) ++ s) in *
        by (now rewrite <- app_assoc).
      apply (IH (pre ++ [c])); auto.
      - rewrite length_app. simpl. lia.
      - subst pos. now rewrite prev_at_app_length.
      - lia. }
    destruct skip as [|skip]; simpl.
    + destruct (Nat.eq_dec i pos) as [->|Hne].
      * subst pos. rewrite drop_app_length, <- Hprev in Hm. rewrite Hm.
        left. now left.
      * destruct (match_here p [] prev pos (c :: s)) as [[e0 caps0]|];
          [|apply Hnext; lia].
        destruct (le_lt_dec (S pos + (e0 - pos - 1)) i) as [Hle|Hlt].
        -- destruct (Hnext _ Hle) as [H|(m & H & Hin)]; [left; now right|].
           right. exists m. split; [now right|assumption].
        -- right. exists (MatchObj pos e0 caps0). split; [now left|].
           simpl. lia.
    + apply Hnext. lia.
Qed.

Lemma finditer_complete p text i e caps :
  i <= List.length text ->
  match_here p [] (prev_at text i) i (skipn i text) = Some (e, caps) ->
  In (MatchObj i e caps) (finditer p text)
  \/ exists m, In m (finditer p text) /\ m_start m < i < m_end m.
Proof.
  intros Hi H. apply (scan_complete p text [] None 0 0 i e caps); auto.
  simpl. lia.
Qed.

End ReComplete.

(** ** generate-remaining-tests.py: the marker scan *)

Section MarkerScan.
Import Str Re DiffReporter.

Lemma list_ascii_of_string_app (a b : string) :
  list_ascii_of_string (a +:+ b)
  = list_ascii_of_string a ++ list_ascii_of_string b.
Proof.
  induction a as [|c a IH]; [reflexivity|].
  change (c :: list_ascii_of_string (a +:+ b)
          = c :: list_ascii_of_string a ++ list_ascii_of_string b).
  now rewrite IH.
Qed.

(** A run of word characters that ends at an opening parenthesis is
    determined by the text. *)
Lemma word_run_unique (w : list ascii) : forall w' t t',
  forallb (in_class Word) w = true -> forallb (in_class Word) w' = true ->
  w ++ "("%char :: t = w' ++ "("%char :: t' -> w = w'.
Proof.
  induction w as [|c w IH]; intros w' t t' Hw Hw' H.
  - destruct w' as [|c' w']; [reflexivity|].
    simpl in H, Hw'. injection H as <- _. discriminate.
  - destruct w' as [|c' w']; simpl in H, Hw, Hw'.
    + injection H as -> _. discriminate.
    + injection H as -> H. apply andb_prop in Hw as [_ Hw].
      apply andb_prop in Hw' as [_ Hw']. f_equal. eauto.
Qed.

(** What a match of the marker pattern says about the text. *)
Lemma marker_match_shape (text : list ascii) m :
  In m (finditer PORTED_PATTERN text) ->
  exists w tail,
    skipn (m_start m) text
    = list_ascii_of_string "// Original: def test_" ++ w ++ "("%char :: tail
    /\ w <> [] /\ forallb (in_class Word) w = true
    /\ m_end m = m_start m + 23 + List.length w
    /\ group text m 1 = "test_" +:+ string_of_list_ascii w.
Proof.
  intros H. apply finditer_sound in H as [_ H].
  unfold PORTED_PATTERN, lit in H. break_match H.
  injection H as Hend Hmarks. subst.
  match goal with
  | Hw : ?w <> [], Ht : skipn _ text = ?rhs |- _ =>
      match rhs with
      | context [w ++ _ :: ?tl] =>
          rename Ht into Htext; rename w into word; rename tl into tail
      end
  end.
  exists word, tail. split; [exact Htext|]. repeat split; auto.
  - rewrite Hend. lia.
  - apply (group_text text m 1 (m_start m)
             (list_ascii_of_string "// Original: def ")
             (list_ascii_of_string "test_" ++ word) ("("%char :: tail)).
    + exact Htext.
    + unfold start_of. rewrite Hmarks. simpl. lia.
    + unfold end_of. rewrite Hmarks. simpl. lia.
Qed.

(** No marker starts strictly inside a match of the marker pattern. *)
Lemma no_marker_inside_match (text : list ascii) m i :
  In m (finditer PORTED_PATTERN text) ->
  m_start m < i < m_end m ->
  text !! i = Some "/"%char -> text !! (S i) = Some "/"%char -> False.
Proof.
  intros Hm Hi H1 H2.
  apply marker_match_shape in Hm as (w & tail & Htext & _ & Hw & Hend & _).
  assert (Hd : exists d, i = m_start m + S d /\ d < 22 + List.length w).
  { exists (i - m_start m - 1). lia. }
  destruct Hd as (d & -> & Hd).
  rewrite <- lookup_drop, Htext in H1.
  replace (S (m_start m + S d)) with (m_start m + S (S d)) in H2 by lia.
  rewrite <- lookup_drop, Htext in H2.
  do 21 (destruct d as [|d]; [simpl in H1, H2; congruence|]).
  simpl in H1. 
  destruct (Nat.lt_ge_cases d (List.length w)) as [Hlt|Hge].
  - rewrite lookup_app_l in H1 by assumption.
    apply list_elem_of_lookup_2, list_elem_of_In in H1.
    rewrite forallb_forall in Hw. apply Hw in H1. discriminate.
  - assert (d = List.length w) as -> by lia.
    rewrite list_lookup_middle in H1 by reflexivity. discriminate.
Qed.

(** X10: a marker written in the ported text is recovered: for a name made
    of test_ and at least one word character, the marker text followed by
    the name and an opening parenthesis, anywhere in the text, puts the
    name in the marker set. *)
Theorem marker_is_recovered (pre w post : string) :
  w <> "" -> Forall (fun c => is_word c = true) (list_ascii_of_string w) ->
  "test_" +:+ w
  ∈ ported (pre +:+ "// Original: def " +:+ "test_" +:+ w +:+ "(" +:+ post).
Proof.
  intros Hne Hword.
  set (P := list_ascii_of_string pre). set (W := list_ascii_of_string w).
  set (Q := list_ascii_of_string post).
  assert (HW : forallb (in_class Word) W = true).
  { apply forallb_forall. now apply List.Forall_forall. }
  assert (HWne : W <> []).
  { unfold W. destruct w; [congruence|discriminate]. }
  unfold ported. rewrite elem_of_list_to_set, list_elem_of_In.
  unfold ported_names, findall.
  rewrite !list_ascii_of_string_app. fold P W Q.
  set (text := P ++ _).
  assert (Htext : skipn (List.length P) text
                  = list_ascii_of_string "// Original: def test_"
                    ++ W ++ "("%char :: Q).
  { unfold text. rewrite drop_app_length. reflexivity. }
  assert (Hsome : is_Some (match_here PORTED_PATTERN []
                             (prev_at text (List.length P)) (List.length P)
                             (skipn (List.length P) text))).
  { eapply match_here_complete. rewrite Htext.
    unfold PORTED_PATTERN, lit. simpl.
    repeat (eexists; split; [reflexivity|]).
    exists W, ("("%char :: Q). repeat split; auto.
    eexists. split; reflexivity. }
  destruct Hsome as [[e caps] Hmatch].
  assert (Hlen : List.length P <= List.length text).
  { unfold text. rewrite length_app. lia. }
  destruct (finditer_complete _ _ _ _ _ Hlen Hmatch) as [Hin|(m & Hin & Hi)].
  - apply in_map_iff. exists (MatchObj (List.length P) e caps).
    split; [|assumption].
    apply marker_match_shape in Hin as (w' & tail & Hs & _ & Hw' & _ & ->).
    cbn [m_start] in Hs. rewrite Htext in Hs. apply app_inv_head in Hs.
    apply word_run_unique in Hs; auto. subst w'.
    unfold W. now rewrite string_of_list_ascii_of_string.
  - exfalso. apply (no_marker_inside_match text m (List.length P) Hin Hi).
    + rewrite <- (Nat.add_0_r (List.length P)), <- lookup_drop, Htext.
      reflexivity.
    + replace (S (List.length P)) with (List.length P + 1) by lia.
      rewrite <- lookup_drop, Htext. reflexivity.
Qed.

Lemma marker_is_recovered_witness :
  "test_" +:+ "bar"
  ∈ ported ("    " +:+ "// Original: def " +:+ "test_" +:+ "bar" +:+ "("
            +:+ "self):").
Proof.
  apply (marker_is_recovered "    " "bar" "self):"); [discriminate|].
  repeat constructor.
Defined.

Lemma missing_none_ported entries : missing entries ∅ = entries.
Proof.
  induction entries as [|[name doc] entries IH]; [reflexivity|].
  simpl. rewrite bool_decide_eq_true_2 by set_solver. now rewrite IH.
Qed.

(** X11: a ported text without a slash holds no marker: the ported count
    is 0 and every entry is missing, in the order given. *)
Theorem no_marker_all_missing (entries : list (string * string))
    (ported_text : string) :
  ~ In "/"%char (list_ascii_of_string ported_text) ->
  diff entries ported_text
  = {| total := List.length entries; ported_count := 0;
       missing_entries := entries |}.
Proof.
  intros Hno.
  assert (Hnames : ported_names ported_text = []).
  { unfold ported_names, findall.
    destruct (finditer PORTED_PATTERN (list_ascii_of_string ported_text))
      as [|m l] eqn:E; [reflexivity|exfalso].
    assert (Hm : In m (finditer PORTED_PATTERN (list_ascii_of_string ported_text)))
      by (rewrite E; now left).
    apply marker_match_shape in Hm as (w & tail & Hs & _).
    apply Hno.
    rewrite <- (take_drop (m_start m) (list_ascii_of_string ported_text)), Hs.
    apply in_or_app. right. now left. }
  unfold diff, ported. rewrite Hnames. simpl.
  now rewrite missing_none_ported.
Qed.

Lemma no_marker_all_missing_witness :
  diff [("test_a", "Checks a.")] "public class IndoorBuilderTests { }"
  = {| total := 1; ported_count := 0;
       missing_entries := [("test_a", "Checks a.")] |}.
Proof.
  apply (no_marker_all_missing [("test_a", "Checks a.")]
           "public class IndoorBuilderTests { }").
  vm_compute. intuition discriminate.
Defined.

(** X12: when the entries have distinct names, the total is at most the
    ported count plus the number of missing entries, and it is their sum
    when every name of the marker set is the name of an entry. *)
Theorem counts_add_up (entries : list (string * string)) (ported_text : string) :
  NoDup (List.map fst entries) ->
  total (diff entries ported_text)
  <= ported_count (diff entries ported_text)
     + List.length (missing_entries (diff entries ported_text))
  /\ ((forall name, name ∈ ported ported_text -> In name (List.map fst entries)) ->
      total (diff entries ported_text)
      = ported_count (diff entries ported_text)
        + List.length (missing_entries (diff entries ported_text))).
Proof.
  intros Hnd. simpl. set (marker_set := ported ported_text).
  rewrite missing_filter.
  set (matched := filter (fun e : string * string => e.1 ∈ marker_set) entries).
  assert (Hlen : List.length entries
                 = List.length matched
                   + List.length (filter (fun e : string * string => e.1 ∉ marker_set)
                                         entries)).
  { pose proof (filter_app_complement
                  (fun e : string * string => e.1 ∈ marker_set) entries) as Hp.
    apply Permutation_length in Hp. rewrite length_app in Hp. fold matched in Hp.
    lia. }
  assert (Hnd' : NoDup (matched.*1)).
  { change (NoDup (entries.*1)) in Hnd.
    eapply sublist_NoDup; [exact Hnd|].
    apply fmap_sublist, sublist_filter. }
  assert (Hsize : size (list_to_set (C := gset string) (matched.*1))
                  = List.length matched).
  { rewrite size_list_to_set by assumption. apply length_fmap. }
  assert (Hsub : list_to_set (C := gset string) (matched.*1) ⊆ marker_set).
  { intros x. rewrite elem_of_list_to_set, list_elem_of_fmap.
    intros (e & -> & He). now apply list_elem_of_filter in He as [He _]. }
  split.
  - apply subseteq_size in Hsub. lia.
  - intros Hall.
    assert (Heq : list_to_set (C := gset string) (matched.*1) = marker_set).
    { apply set_eq. intros x. split; [apply Hsub|]. intros Hx.
      rewrite elem_of_list_to_set, list_elem_of_fmap.
      apply Hall in Hx as Hin. apply in_map_iff in Hin as (e & <- & He).
      exists e. split; [reflexivity|].
      apply list_elem_of_filter. split; [assumption|].
      now apply list_elem_of_In. }
    assert (Hs : size marker_set = List.length matched)
      by (rewrite <- Hsize; now f_equal).
    lia.
Qed.

Lemma counts_add_up_witness :
  total (diff [("test_bar", "a"); ("test_baz", "b")] Samples.two_markers)
  <= ported_count (diff [("test_bar", "a"); ("test_baz", "b")] Samples.two_markers)
     + List.length
         (missing_entries
            (diff [("test_bar", "a"); ("test_baz", "b")] Samples.two_markers))
  /\ ((forall name, name ∈ ported Samples.two_markers ->
                    In name (List.map fst [("test_bar", "a"); ("test_baz", "b")])) ->
      total (diff [("test_bar", "a"); ("test_baz", "b")] Samples.two_markers)
      = ported_count (diff [("test_bar", "a"); ("test_baz", "b")] Samples.two_markers)
        + List.length
            (missing_entries
               (diff [("test_bar", "a"); ("test_baz", "b")] Samples.two_markers))).
Proof.
  apply (counts_add_up [("test_bar", "a"); ("test_baz", "b")] Samples.two_markers).
  simpl. apply NoDup_cons_2.
  - intros H%list_elem_of_In. simpl in H. intuition discriminate.
  - apply NoDup_cons_2; [apply not_elem_of_nil|apply NoDup_nil_2].
Defined.

End MarkerScan.

(** ** generate-remaining-tests.py: the entries of the first loop *)

Section DocEntries.
Import Str Re DiffReporter.

Lemma first_line_cons c s :
  first_line (String c s)
  = if Ascii.eqb c LF then "" else String c (first_line s).
Proof.
  unfold first_line. simpl.
  destruct (Ascii.eqb c LF); [reflexivity|].
  destruct (split LF s) eqn:E; [now apply split_nonempty in E|reflexivity].
Qed.

Lemma first_line_chars s : forall c,
  In c (list_ascii_of_string (first_line s)) ->
  In c (list_ascii_of_string s) /\ c <> LF.
Proof.
  induction s as [|a s IH]; intros c H; [contradiction|].
  rewrite first_line_cons in H.
  destruct (Ascii.eqb_spec a LF) as [->|Ha]; [contradiction|].
  destruct H as [<-|H]; [split; [now left|assumption]|].
  apply IH in H as [H1 H2]. split; [now right|assumption].
Qed.

Lemma lstrip_chars l : forall c, In c (lstrip l) -> In c l.
Proof.
  induction l as [|a l IH]; intros c H; [contradiction|]. simpl in H.
  destruct (is_space a); [right; auto|assumption].
Qed.

Lemma lstrip_head l c l' : lstrip l = c :: l' -> is_space c = false.
Proof.
  induction l as [|a l IH]; [discriminate|]. simpl.
  destruct (is_space a) eqn:E; [assumption|]. now intros [= <- _].
Qed.

Lemma lstrip_snoc l c :
  is_space c = false -> exists k, lstrip (l ++ [c]) = k ++ [c].
Proof.
  intros Hc. induction l as [|a l [k IH]]; simpl.
  - rewrite Hc. now exists [].
  - destruct (is_space a); [eauto|]. now exists (a :: l).
Qed.

Lemma strip_chars s c :
  In c (list_ascii_of_string (strip s)) -> In c (list_ascii_of_string s).
Proof.
  unfold strip. rewrite list_ascii_of_string_of_list_ascii.
  intros H. apply lstrip_chars. apply in_rev.
  apply (lstrip_chars _ c). now apply in_rev.
Qed.

(** What [strip] returns does not start with white space. *)
Lemma strip_head s c rest : strip s = String c rest -> is_space c = false.
Proof.
  unfold strip.
  destruct (lstrip (list_ascii_of_string s)) as [|a l] eqn:E; [discriminate|].
  pose proof (lstrip_head _ _ _ E) as Ha.
  simpl rev. destruct (lstrip_snoc (rev l) a Ha) as [k ->].
  rewrite rev_app_distr. simpl. now intros [= <- _].
Qed.

(** What a match of the pattern of the first loop says about the text. *)
Lemma doc_match_shape (text : list ascii) m :
  In m (finditer DOC_PATTERN text) ->
  exists w doc,
    w <> [] /\ forallb (in_class Word) w = true
    /\ forallb (in_class (NotChar QUOTE)) doc = true
    /\ group text m 1 = "test_" +:+ string_of_list_ascii w
    /\ group text m 3 = string_of_list_ascii doc.
Proof.
  intros H. apply finditer_sound in H as [_ H].
  unfold DOC_PATTERN, lit in H. break_match H.
  injection H as _ Hmarks. subst.
  exists x10, x25. repeat split; auto.
  - apply (group_text text m 1 (m_start m) (x ++ list_ascii_of_string "def ")
             (list_ascii_of_string "test_" ++ x10)
             ("("%char :: x13 ++ ")"%char :: ":"%char :: x17 ++ LF :: x20
              ++ QUOTE :: QUOTE :: QUOTE :: x25
              ++ QUOTE :: QUOTE :: QUOTE :: x29)).
    + rewrite Hm0, <- app_assoc. reflexivity.
    + unfold start_of. rewrite Hmarks, length_app. simpl. lia.
    + unfold end_of. rewrite Hmarks, length_app. simpl. lia.
  - apply (group_text text m 3 (m_start m)
             (x ++ list_ascii_of_string "def test_" ++ x10 ++ "("%char :: x13
              ++ ")"%char :: ":"%char :: x17 ++ LF :: x20
              ++ [QUOTE; QUOTE; QUOTE])
             x25 (QUOTE :: QUOTE :: QUOTE :: x29)).
    + rewrite Hm0. repeat (rewrite <- app_assoc; simpl). reflexivity.
    + unfold start_of. rewrite Hmarks.
      repeat (rewrite length_app; simpl). simpl. lia.
    + unfold end_of. rewrite Hmarks.
      repeat (rewrite length_app; simpl). simpl. lia.
Qed.

(** X13: every entry of the first loop on an ASCII text has a name made
    of test_ and at least one word character, and a documentation line
    that holds no line feed and no double quote and does not start with
    white space. *)
Theorem python_tests_entry_shape (python_content name doc : string) :
  is_ascii python_content = true ->
  In (name, doc) (python_tests python_content) ->
  (exists w, name = "test_" +:+ w /\ w <> ""
             /\ Forall (fun c => is_word c = true) (list_ascii_of_string w))
  /\ ~ In LF (list_ascii_of_string doc)
  /\ ~ In QUOTE (list_ascii_of_string doc)
  /\ (forall c rest, doc = String c rest -> is_space c = false).
Proof.
  intros _. unfold python_tests, python_tests_text.
  intros (m & Heq & Hm)%in_map_iff. injection Heq as <- <-.
  apply doc_match_shape in Hm as (w & raw & Hw & Hword & Hraw & -> & ->).
  split; [|split; [|split]].
  - exists (string_of_list_ascii w).
    auto using string_of_list_ascii_nonempty, forallb_Forall_string.
  - intros H. apply first_line_chars in H as [_ H]. congruence.
  - intros H. apply first_line_chars in H as [H _].
    apply strip_chars in H. rewrite list_ascii_of_string_of_list_ascii in H.
    rewrite forallb_forall in Hraw. apply Hraw in H.
    vm_compute in H. discriminate.
  - intros c rest Hdoc.
    destruct (strip (string_of_list_ascii raw)) as [|a s] eqn:E;
      [discriminate|].
    rewrite first_line_cons in Hdoc.
    destruct (Ascii.eqb a LF); [discriminate|].
    injection Hdoc as <- _. eapply strip_head; eauto.
Qed.

Lemma python_tests_entry_shape_witness :
  (exists w, "test_x" = "test_" +:+ w /\ w <> ""
             /\ Forall (fun c => is_word c = true) (list_ascii_of_string w))
  /\ ~ In LF (list_ascii_of_string "Checks x.")
  /\ ~ In QUOTE (list_ascii_of_string "Checks x.")
  /\ (forall c rest, "Checks x." = String c rest -> is_space c = false).
Proof.
  apply (python_tests_entry_shape Samples.blank_then_documented_def
           "test_x" "Checks x."); [reflexivity|].
  vm_compute. auto.
Defined.

Lemma first_line_until_lf x y :
  ~ In LF (list_ascii_of_string x) -> first_line (x +:+ String LF y) = x.
Proof.
  induction x as [|c x IH]; intros H.
  - change (first_line (String LF y) = ""). rewrite first_line_cons.
    now rewrite Ascii.eqb_refl.
  - change (first_line (String c (x +:+ String LF y)) = String c x).
    rewrite first_line_cons.
    destruct (Ascii.eqb_spec c LF) as [->|_]; [destruct H; now left|].
    rewrite IH; [reflexivity|]. intros Hin. apply H. now right.
Qed.

Lemma lstrip_nonspace c l : is_space c = false -> lstrip (c :: l) = c :: l.
Proof. intros H. simpl. now rewrite H. Qed.

(** X14: the documentation line is not trimmed on the right: for a block
    whose text starts and ends with ASCII characters that are not white
    space, the line kept is the text up to the first line feed as it
    stands, with any white space it ends with. *)
Theorem doc_line_keeps_trailing_space (c d : ascii) (x y : string) :
  is_ascii_char c = true -> is_ascii_char d = true ->
  is_space c = false -> is_space d = false ->
  ~ In LF (list_ascii_of_string (String c x)) ->
  first_line (strip (String c x +:+ String LF (y +:+ String d "")))
  = String c x.
Proof.
  intros _ _ Hc Hd Hlf.
  assert (Hstrip : strip (String c x +:+ String LF (y +:+ String d ""))
                   = String c x +:+ String LF (y +:+ String d "")).
  { unfold strip.
    set (s := String c x +:+ String LF (y +:+ String d "")).
    assert (Hs : list_ascii_of_string s
                 = c :: (list_ascii_of_string x ++ LF :: list_ascii_of_string y)
                     ++ [d]).
    { unfold s.
      change (c :: list_ascii_of_string (x +:+ String LF (y +:+ String d ""))
              = c :: (list_ascii_of_string x ++ LF :: list_ascii_of_string y)
                  ++ [d]).
      rewrite list_ascii_of_string_app.
      change (list_ascii_of_string (String LF (y +:+ String d "")))
        with (LF :: list_ascii_of_string (y +:+ String d "")).
      rewrite list_ascii_of_string_app, <- app_assoc. reflexivity. }
    rewrite Hs, (lstrip_nonspace c) by assumption.
    change (rev (c :: ?l ++ [d])) with (rev (l ++ [d]) ++ [c]).
    rewrite rev_app_distr. simpl app.
    rewrite (lstrip_nonspace d) by assumption.
    change (rev (d :: ?r ++ [c])) with (rev (r ++ [c]) ++ [d]).
    rewrite rev_app_distr. simpl app. rewrite rev_involutive.
    change (c :: ?l ++ [d]) with (c :: (l ++ [d])).
    rewrite <- Hs. apply string_of_list_ascii_of_string. }
  rewrite Hstrip. now apply first_line_until_lf.
Qed.

Lemma doc_line_keeps_trailing_space_witness :
  first_line (strip (String "C" "hecks x.  " +:+ String LF ("  more" +:+ String "." "")))
  = String "C" "hecks x.  ".
Proof.
  apply (doc_line_keeps_trailing_space "C" "." "hecks x.  " "  more");
    try reflexivity.
  vm_compute. intuition discriminate.
Defined.

End DocEntries.

(** ** analyze_porting_status.py: the report of [main] *)

Section ReportFacts.
Import Str Report.

Lemma ascii_compare_lt_trans x y z :
  Ascii.compare x y = Lt -> Ascii.compare y z = Lt -> Ascii.compare x z = Lt.
Proof.
  unfold Ascii.compare. rewrite !N.compare_lt_iff. apply N.lt_trans.
Qed.

Lemma string_compare_not_gt_trans a : forall b c,
  String.compare a b <> Gt -> String.compare b c <> Gt ->
  String.compare a c <> Gt.
Proof.
  induction a as [|x a IH]; intros [|y b] [|z c]; simpl; try congruence.
  destruct (Ascii.compare x y) eqn:Exy; try congruence;
    destruct (Ascii.compare y z) eqn:Eyz; try congruence.
  - apply Ascii.compare_eq_iff in Exy, Eyz. subst.
    assert (Ascii.compare z z = Eq) as -> by apply N.compare_refl. apply IH.
  - apply Ascii.compare_eq_iff in Exy. subst. rewrite Eyz. congruence.
  - apply Ascii.compare_eq_iff in Eyz. subst. rewrite Exy. congruence.
  - rewrite (ascii_compare_lt_trans x y z) by assumption. congruence.
Qed.

Lemma leb_not_gt a b : String.leb a b = true <-> String.compare a b <> Gt.
Proof. unfold String.leb. destruct (String.compare a b); split; congruence. Qed.

#[local] Instance str_le_trans : Transitive str_le.
Proof.
  intros a b c. unfold str_le. rewrite !leb_not_gt.
  apply string_compare_not_gt_trans.
Qed.

#[local] Instance str_le_antisym : AntiSymm (=) str_le.
Proof. intros a b. apply String.leb_antisym. Qed.

#[local] Instance str_le_total : Total str_le.
Proof. intros a b. apply String.leb_total. Qed.

(** [sorted] returns the one list in order that holds the same strings. *)
Lemma sorted_unique (l l' : list string) :
  Sorted str_le l' -> l' ≡ₚ l -> l' = sorted l.
Proof.
  intros Hs Hp. apply (Sorted_unique str_le); [assumption| |].
  - apply Sorted_merge_sort, _.
  - unfold sorted. now rewrite merge_sort_Permutation.
Qed.

Lemma sorted_filter (P : string -> Prop) `{!forall x, Decision (P x)} l :
  StronglySorted str_le l -> StronglySorted str_le (filter P l).
Proof.
  induction 1 as [|x l Hs IH Hall]; [constructor|].
  rewrite filter_cons. destruct (decide (P x)); [|assumption].
  constructor; [assumption|].
  rewrite List.Forall_forall in *. intros y Hy%list_elem_of_In.
  apply list_elem_of_filter in Hy as [_ Hy]. apply Hall.
  now apply list_elem_of_In.
Qed.

(** The grouping loop: under each key, what was there, then the module
    paths with that top level, in the order of the loop. *)
Lemma group_modules_lookup module_paths : forall by_module top,
  group_modules module_paths by_module !! top
  = match filter (fun m => top_level_of m = top) module_paths with
    | [] => by_module !! top
    | l => Some (default [] (by_module !! top) ++ l)
    end.
Proof.
  induction module_paths as [|m rest IH]; intros by_module top; [reflexivity|].
  simpl. rewrite IH, filter_cons.
  destruct (decide (top_level_of m = top)) as [->|Hne].
  - rewrite lookup_insert_eq. simpl.
    destruct (filter _ rest); [reflexivity|].
    now rewrite <- app_assoc.
  - now rewrite lookup_insert_ne by assumption.
Qed.

Lemma elem_of_sorted_keys (pykotor_modules : gmap string string) x :
  x ∈ sorted (elements (dom pykotor_modules)) <-> x ∈ dom pykotor_modules.
Proof.
  unfold sorted. rewrite merge_sort_Permutation. apply elem_of_elements.
Qed.

(** What the report stores under a key: the sorted module paths whose
    first segment is the key, when there is one. *)
Lemma by_module_of_lookup (pykotor_modules : gmap string string) (top : string) :
  by_module_of pykotor_modules !! top
  = match filter (fun m => top_level_of m = top)
                 (sorted (elements (dom pykotor_modules))) with
    | [] => None
    | l => Some l
    end.
Proof.
  unfold by_module_of. rewrite group_modules_lookup, lookup_empty. simpl.
  now destruct (filter _ _).
Qed.

(** X15: each module path is filed under its first segment and nowhere
    else: the group of a key holds exactly the module paths of the
    dictionary whose first segment is the key, each once, in increasing
    order, and a key has a group only when some module path has it as its
    first segment. *)
Theorem modules_grouped_by_top_level
    (pykotor_modules : gmap string string) (top : string) (l : list string) :
  by_module_of pykotor_modules !! top = Some l ->
  l <> [] /\ NoDup l /\ StronglySorted str_le l
  /\ forall x, x ∈ l <-> x ∈ dom pykotor_modules /\ top_level_of x = top.
Proof.
  unfold by_module_of. rewrite group_modules_lookup, lookup_empty. simpl.
  set (keys := sorted (elements (dom pykotor_modules))).
  intros H.
  assert (Hl : l = filter (fun m => top_level_of m = top) keys /\ l <> []).
  { destruct (filter _ keys) eqn:E; [discriminate|].
    injection H as <-. split; [reflexivity|discriminate]. }
  destruct Hl as [-> Hne]. split; [assumption|].
  assert (Hnd : NoDup keys).
  { unfold keys, sorted. rewrite merge_sort_Permutation. apply NoDup_elements. }
  split; [now apply NoDup_filter|].
  split.
  - apply sorted_filter. apply StronglySorted_merge_sort; apply _.
  - intros x. rewrite list_elem_of_filter. unfold keys.
    rewrite elem_of_sorted_keys. tauto.
Qed.

Lemma modules_grouped_by_top_level_witness :
  ["common.misc"; "common.module"] <> []
  /\ NoDup ["common.misc"; "common.module"]
  /\ StronglySorted str_le ["common.misc"; "common.module"]
  /\ forall x, x ∈ ["common.misc"; "common.module"]
               <-> x ∈ dom (<["common.module" := "a"]>
                              (<["tools.path" := "b"]>
                                 (<["common.misc" := "c"]> (∅ : gmap string string))))
                   /\ top_level_of x = "common".
Proof.
  apply (modules_grouped_by_top_level
           (<["common.module" := "a"]>
              (<["tools.path" := "b"]>
                 (<["common.misc" := "c"]> ∅))) "common").
  vm_compute. reflexivity.
Defined.

(** X16: no module path is left out: every module path of the dictionary
    stands in the group of its first segment. *)
Theorem every_module_is_grouped
    (pykotor_modules : gmap string string) (module_path : string) :
  module_path ∈ dom pykotor_modules ->
  exists l, by_module_of pykotor_modules !! top_level_of module_path = Some l
            /\ module_path ∈ l.
Proof.
  intros Hin. unfold by_module_of.
  rewrite group_modules_lookup, lookup_empty. simpl.
  set (keys := sorted (elements (dom pykotor_modules))).
  assert (Hf : module_path
               ∈ filter (fun m => top_level_of m = top_level_of module_path) keys).
  { apply list_elem_of_filter. split; [reflexivity|].
    now apply elem_of_sorted_keys. }
  destruct (filter _ keys) as [|y l] eqn:E.
  - now apply not_elem_of_nil in Hf.
  - eauto.
Qed.

Lemma every_module_is_grouped_witness :
  exists l, by_module_of {["tools.path" := "b"]} !! top_level_of "tools.path" = Some l
            /\ "tools.path" ∈ l.
Proof.
  apply (every_module_is_grouped {["tools.path" := "b"]} "tools.path").
  rewrite dom_singleton_L. now apply elem_of_singleton.
Defined.

Lemma group_total_insert (by_module : gmap string (list string)) k l :
  group_total (<[k := l]> by_module)
  = List.length l + group_total (delete k by_module).
Proof.
  unfold group_total. rewrite <- insert_delete_eq.
  rewrite map_to_list_insert by apply lookup_delete_eq. reflexivity.
Qed.

Lemma group_total_default (by_module : gmap string (list string)) k :
  group_total by_module
  = List.length (default [] (by_module !! k)) + group_total (delete k by_module).
Proof.
  destruct (by_module !! k) as [l|] eqn:E; simpl.
  - rewrite <- group_total_insert. now rewrite insert_id.
  - now rewrite delete_id.
Qed.

Lemma group_modules_total module_paths : forall by_module,
  group_total (group_modules module_paths by_module)
  = group_total by_module + List.length module_paths.
Proof.
  induction module_paths as [|m rest IH]; intros by_module; simpl; [lia|].
  rewrite IH, group_total_insert, length_app.
  rewrite (group_total_default by_module (top_level_of m)). simpl. lia.
Qed.

(** X17: the sizes of the groups add up to the number of module paths of
    the dictionary, the number the first line of the report gives. *)
Theorem group_sizes_add_up (pykotor_modules : gmap string string) :
  group_total (by_module_of pykotor_modules) = size pykotor_modules.
Proof.
  unfold by_module_of. rewrite group_modules_total.
  unfold sorted. rewrite merge_sort_Permutation.
  unfold group_total. rewrite map_to_list_empty. simpl.
  rewrite <- size_dom. reflexivity.
Qed.

(** X18: the groups are printed in increasing order of their keys, each
    key once, and the keys are the first segments of the module paths of
    the dictionary. *)
Theorem group_keys_in_order (pykotor_modules : gmap string string) :
  StronglySorted str_le (group_keys (by_module_of pykotor_modules))
  /\ NoDup (group_keys (by_module_of pykotor_modules))
  /\ forall k, k ∈ group_keys (by_module_of pykotor_modules)
               <-> exists x, x ∈ dom pykotor_modules /\ top_level_of x = k.
Proof.
  unfold group_keys, sorted. split; [|split].
  - apply StronglySorted_merge_sort; apply _.
  - rewrite merge_sort_Permutation. apply NoDup_elements.
  - intros k. rewrite merge_sort_Permutation, elem_of_elements, elem_of_dom.
    rewrite by_module_of_lookup.
    split.
    + intros [l Hl].
      destruct (filter _ _) as [|x l'] eqn:E; [discriminate|].
      exists x.
      assert (Hx : x ∈ filter (fun m => top_level_of m = k)
                         (sorted (elements (dom pykotor_modules))))
        by (rewrite E; now left).
      apply list_elem_of_filter in Hx as [Hk Hx].
      apply elem_of_sorted_keys in Hx. auto.
    + intros (x & Hx & <-).
      assert (Hf : x ∈ filter (fun m => top_level_of m = top_level_of x)
                         (sorted (elements (dom pykotor_modules)))).
      { apply list_elem_of_filter. split; [reflexivity|].
        now apply elem_of_sorted_keys. }
      destruct (filter _ _) as [|y l]; [now apply not_elem_of_nil in Hf|eauto].
Qed.

End ReportFacts.
